(** * decktech: the card-embedding batch pipeline

    A shallow embedding of [scripts/embed_cards.py] (and of the sibling
    [extract_props] of [scripts/make_dummy_vectors.py]) together with the
    properties its specification states about it.

    Modelling conventions.
    - A Scryfall card is a JSON object.  Its fields carry the types of the
      Scryfall schema: strings, lists of strings, a float for [cmc], an
      integer for [edhrec_rank].  A field of type [option _] is [None] when
      the key is absent or holds JSON [null]: Python's [dict.get] answers
      [None] in both cases, and the scripts read cards through [dict.get]
      only.  On such cards [float(cmc)] and [int(edhrec_rank)] are the
      values themselves.
    - Python truthiness of a string is [truthy]; [x or s] with the empty
      string for [s] is [or_empty].
    - Python floats are kept abstract: the class [PyFloat] lists the float
      operations the script uses.  The driver is run on binary64 in the
      concrete scenarios; the real numbers serve as the exact reading of
      [l2_normalize].
    - Files are kept in a finite map from paths to documents; a write may
      fail when the file is opened or after it has been truncated.
    - Line numbers refer to [scripts/embed_cards.py] unless said otherwise. *)

From Stdlib Require Import Reals Lra.
From Stdlib Require Import ZArith Lia PrimFloat.
From Stdlib Require Floats.
From stdpp Require Import base option list strings gmap.

Local Open Scope Z_scope.

(** ** Python values used by the scripts *)

(** [bool(s)] for a string. *)
Definition truthy (s : string) : bool :=
  match s with
  | EmptyString => false
  | String _ _ => true
  end.

(** [bool(x)] for [x = d.get(key)] where the entry is a string or missing. *)
Definition truthy_opt (o : option string) : bool :=
  match o with
  | Some s => truthy s
  | None => false
  end.

(** [x or s] for [x = d.get(key)] and the empty string [s]. *)
Definition or_empty (o : option string) : string :=
  match o with
  | Some s => if truthy s then s else EmptyString
  | None => EmptyString
  end.

(** [x or []] for a list-valued entry. *)
Definition or_nil {A : Type} (o : option (list A)) : list A :=
  match o with
  | Some (x :: l) => x :: l
  | _ => []
  end.

(** [sep.join(parts)]. *)
Definition join (sep : string) (parts : list string) : string :=
  String.concat sep parts.

(** The float operations of [l2_normalize]: [0], [+], [*], [/],
    [math.sqrt] and [<=]. *)
Class PyFloat (F : Type) := {
  fzero : F;
  fadd : F -> F -> F;
  fmul : F -> F -> F;
  fdiv : F -> F -> F;
  fsqrt : F -> F;
  fle : F -> F -> bool
}.

(** IEEE 754 binary64, the representation of a CPython float. *)
#[global] Instance binary64 : PyFloat float := {
  fzero := PrimFloat.zero;
  fadd := PrimFloat.add;
  fmul := PrimFloat.mul;
  fdiv := PrimFloat.div;
  fsqrt := PrimFloat.sqrt;
  fle := PrimFloat.leb
}.

(** [json.dumps(obj, separators=(",", ":"))] on a mapping of strings. *)
Class JsonDumps := {
  dumps_compact : list (string * string) -> string
}.

(** The line separator of [build_embed_text]. *)
Definition newline : string := String (Ascii.ascii_of_nat 10) EmptyString.

(** [d.get(key)] on a dictionary kept as the list of its items. *)
Definition dict_get {V : Type} (key : string) (d : list (string * V)) : option V :=
  snd <$> List.find (fun kv => String.eqb kv.1 key) d.

(** A value stored in the property dictionary. *)
Inductive pyval (F : Type) : Type :=
| PNone
| PStr (s : string)
| PFloat (x : F)
| PInt (z : Z)
| PList (l : list string).
Arguments PNone {F}.
Arguments PStr {F} s.
Arguments PFloat {F} x.
Arguments PInt {F} z.
Arguments PList {F} l.

Definition is_none {F : Type} (v : pyval F) : bool :=
  match v with
  | PNone => true
  | _ => false
  end.

(** ** Cards and faces *)

Module Face.
Record t : Type := mk {
  type_line : option string;
  oracle_text : option string;
  image_uris : option (gmap string (option string))
}.
End Face.

Module Card.
Record t (F : Type) : Type := mk {
  id : option string;
  name : option string;
  mana_cost : option string;
  cmc : option F;
  type_line : option string;
  oracle_text : option string;
  power : option string;
  toughness : option string;
  colors : option (list string);
  color_identity : option (list string);
  keywords : option (list string);
  edhrec_rank : option Z;
  set_code : option string;
  collector_number : option string;
  rarity : option string;
  layout : option string;
  image_uris : option (gmap string (option string));
  legalities : option (list (string * string));
  card_faces : option (list Face.t)
}.
Arguments mk {F}.
Arguments id {F}.
Arguments name {F}.
Arguments mana_cost {F}.
Arguments cmc {F}.
Arguments type_line {F}.
Arguments oracle_text {F}.
Arguments power {F}.
Arguments toughness {F}.
Arguments colors {F}.
Arguments color_identity {F}.
Arguments keywords {F}.
Arguments edhrec_rank {F}.
Arguments set_code {F}.
Arguments collector_number {F}.
Arguments rarity {F}.
Arguments layout {F}.
Arguments image_uris {F}.
Arguments legalities {F}.
Arguments card_faces {F}.
End Card.

(** ** [scripts/embed_cards.py] *)

Module EmbedCards.

Section Normalizer.
Context {F : Type} `{PyFloat F} `{JsonDumps}.

(** *** [l2_normalize] *)

(** [sum(v * v for v in vec)]: a left fold, starting from [0]. *)
Definition sum_squares (vec : list F) : F :=
  fold_left (fun acc v => fadd acc (fmul v v)) vec fzero.

Definition l2_normalize (vec : list F) : list F :=
  let s := sum_squares vec in
  if fle s fzero then vec
  else
    let n := fsqrt s in
    map (fun v => fdiv v n) vec.

(** *** [colors_to_words] *)

Definition mapping : gmap string string :=
  list_to_map
    [("W", "White"); ("U", "Blue"); ("B", "Black"); ("R", "Red"); ("G", "Green")].

(** [mapping.get(c, c)] *)
Definition mapping_get (c : string) : string :=
  default c (mapping !! c).

Definition colors_to_words (colors : list string) : string :=
  match colors with
  | [] => "Colorless"
  | _ :: _ => join "/" (map mapping_get colors)
  end.

(** *** [build_embed_text] *)

(** One turn of the loop over the faces (lines 99-103). *)
Definition embed_face_step (parts : list string) (f : Face.t) : list string :=
  let tl := or_empty (Face.type_line f) in
  let ot := or_empty (Face.oracle_text f) in
  if truthy tl || truthy ot then parts ++ [tl +:+ " :: " +:+ ot] else parts.

(** Lines 95-105: the oracle text the embedding input is built from. *)
Definition embed_oracle_text (card : Card.t F) : string :=
  let oracle_text := Card.oracle_text card in
  if negb (truthy_opt oracle_text) then
    let faces := or_nil (Card.card_faces card) in
    let parts := fold_left embed_face_step faces [] in
    join " || " parts
  else or_empty oracle_text.

(** Lines 107-116: the list [fields], filled by successive appends. *)
Definition build_embed_fields (card : Card.t F) (include_name : bool) : list string :=
  let name := or_empty (Card.name card) in
  let type_line := or_empty (Card.type_line card) in
  let mana_cost := or_empty (Card.mana_cost card) in
  let colors := or_nil (Card.colors card) in
  let colors_str := colors_to_words colors in
  let oracle_text := embed_oracle_text card in
  let fields := [] in
  let fields := if include_name && truthy name then fields ++ ["Name: " +:+ name] else fields in
  let fields := if truthy type_line then fields ++ ["Type: " +:+ type_line] else fields in
  let fields := if truthy mana_cost then fields ++ ["ManaCost: " +:+ mana_cost] else fields in
  let fields := fields ++ ["Colors: " +:+ colors_str] in
  let fields := if truthy oracle_text then fields ++ ["Oracle: " +:+ oracle_text] else fields in
  fields.

Definition build_embed_text (card : Card.t F) (include_name : bool) : string :=
  join newline (build_embed_fields card include_name).

(** *** [extract_props] *)

Abbreviation props := (list (string * pyval F)).

(** [d.get("image_uris") or {}] *)
Definition or_no_uris (o : option (gmap string (option string)))
  : gmap string (option string) :=
  default ∅ o.

(** The loop of [get_image] over the faces (lines 127-131). *)
Fixpoint get_image_faces (faces : list Face.t) (key : string) : string :=
  match faces with
  | [] => EmptyString
  | f :: faces' =>
      let fiu := or_no_uris (Face.image_uris f) in
      match fiu !! key with
      | Some v => or_empty v
      | None => get_image_faces faces' key
      end
  end.

Definition get_image (card : Card.t F) (key : string) : string :=
  let iu := or_no_uris (Card.image_uris card) in
  match iu !! key with
  | Some v => or_empty v
  | None => get_image_faces (or_nil (Card.card_faces card)) key
  end.

(** One turn of the loop over the faces (lines 138-141). *)
Definition props_face_step (parts : list string) (f : Face.t) : list string :=
  let ot := or_empty (Face.oracle_text f) in
  if truthy ot then parts ++ [ot] else parts.

(** Lines 134-142 and line 153, where an empty result stays empty. *)
Definition props_oracle_text (card : Card.t F) : string :=
  let oracle_text := Card.oracle_text card in
  if negb (truthy_opt oracle_text) then
    let faces := or_nil (Card.card_faces card) in
    let parts := fold_left props_face_step faces [] in
    join " || " parts
  else or_empty oracle_text.

Definition legalities_str (card : Card.t F) : string :=
  match Card.legalities card with
  | Some (e :: l) => dumps_compact (e :: l)
  | _ => EmptyString
  end.

Definition opt_str (o : option string) : pyval F :=
  match o with
  | Some s => PStr s
  | None => PNone
  end.

Definition extract_props (card : Card.t F) : props :=
  [ ("scryfall_id", opt_str (Card.id card));
    ("name", opt_str (Card.name card));
    ("mana_cost", PStr (or_empty (Card.mana_cost card)));
    ("cmc", match Card.cmc card with Some x => PFloat x | None => PNone end);
    ("type_line", PStr (or_empty (Card.type_line card)));
    ("oracle_text", PStr (props_oracle_text card));
    ("power", PStr (or_empty (Card.power card)));
    ("toughness", PStr (or_empty (Card.toughness card)));
    ("colors", PList (or_nil (Card.colors card)));
    ("color_identity", PList (or_nil (Card.color_identity card)));
    ("keywords", PList (or_nil (Card.keywords card)));
    ("edhrec_rank", match Card.edhrec_rank card with Some z => PInt z | None => PNone end);
    ("set", PStr (or_empty (Card.set_code card)));
    ("collector_number", PStr (or_empty (Card.collector_number card)));
    ("rarity", PStr (or_empty (Card.rarity card)));
    ("layout", PStr (or_empty (Card.layout card)));
    ("image_small", PStr (get_image card "small"));
    ("image_normal", PStr (get_image card "normal"));
    ("legalities", PStr (legalities_str card)) ].

(** Line 255: [{k: v for k, v in props.items() if v is not None}]. *)
Definition clean_props (p : props) : props :=
  List.filter (fun kv => negb (is_none kv.2)) p.

End Normalizer.

(** *** The files and the console of a run *)

(** The tag [load_model] returns: [st] or [hf]. *)
Inductive kind : Type := kind_st | kind_hf.

(** The object [main] assembles for one card (lines 256-261). *)
Record OutputObject (F : Type) : Type := {
  obj_class : string;
  obj_id : string;
  obj_properties : list (string * pyval F);
  obj_vector : list F
}.
Arguments obj_class {F}.
Arguments obj_id {F}.
Arguments obj_properties {F}.
Arguments obj_vector {F}.

(** The dictionary [state] written to the checkpoint (lines 273-280). *)
Record CheckpointState : Type := {
  next_offset : Z;
  total : Z;
  last_batch_out : string;
  cp_model : string;
  cp_include_name : bool;
  cp_kind : kind
}.

(** The [next_offset] entry of a JSON object that this script did not write:
    missing, a value [v] with [int(v) = z], or a value on which [int]
    raises. *)
Inductive cp_entry : Type :=
| Missing
| IntLike (z : Z)
| NotIntLike.

(** What a path holds.  [Unusable] stands for a file that exists but cannot
    be opened for reading or is not a JSON object: the empty or cut-off
    file a failed write leaves behind, a JSON array, a directory. *)
Inductive document (F : Type) : Type :=
| BatchDoc (objects : list (OutputObject F))
| CheckpointDoc (state : CheckpointState)
| ObjectDoc (e : cp_entry)
| Unusable.
Arguments BatchDoc {F} objects.
Arguments CheckpointDoc {F} state.
Arguments ObjectDoc {F} e.
Arguments Unusable {F}.

(** How [open(path, "w")] followed by [json.dump] ends. *)
Inductive fault : Type :=
| NoFault
| OpenFails    (* [open] raises: the file is left as it was *)
| DumpFails.   (* [open] has truncated the file, then the write raises *)

Inductive msg : Type :=
| WarnReadCheckpoint               (* line 208 *)
| WroteBatch (n : nat) (path : string)               (* line 268 *)
| UpdatedCheckpoint (path : string) (next total : Z) (* line 284 *)
| WarnWriteCheckpoint.             (* line 286 *)

Record World (F : Type) : Type := {
  files : gmap string (document F);
  faults : string -> fault;
  stdout : list msg
}.
Arguments files {F}.
Arguments faults {F}.
Arguments stdout {F}.

Inductive exn : Type :=
| FileNotFoundError
| Exception.       (* any other subclass of [Exception] *)

Inductive res (A : Type) : Type :=
| Ret (a : A)
| Raise (e : exn).
Arguments Ret {A} a.
Arguments Raise {A} e.

(** Computations of the script: they read and change the world and may
    raise. *)
Definition M (F A : Type) : Type := World F -> res A * World F.

Section Monad.
Context {F : Type}.

Definition ret {A : Type} (a : A) : M F A := fun w => (Ret a, w).

Definition bind {A B : Type} (m : M F A) (k : A -> M F B) : M F B :=
  fun w =>
    match m w with
    | (Ret a, w') => k a w'
    | (Raise e, w') => (Raise e, w')
    end.

Definition raise {A : Type} (e : exn) : M F A := fun w => (Raise e, w).

(** [try: body  except FileNotFoundError: on_missing
                except Exception: on_error] *)
Definition try_except {A : Type} (body : M F A) (on_missing on_error : M F A) : M F A :=
  fun w =>
    match body w with
    | (Ret a, w') => (Ret a, w')
    | (Raise FileNotFoundError, w') => on_missing w'
    | (Raise Exception, w') => on_error w'
    end.

Definition lift {A : Type} (r : res A) : M F A := fun w => (r, w).

(** The world after [print] has written the lines [log]. *)
Definition log_to (w : World F) (log : list msg) : World F :=
  {| files := files w; faults := faults w; stdout := stdout w ++ log |}.

Definition print (m : msg) : M F unit :=
  fun w => (Ret tt, log_to w [m]).

Definition set_file (w : World F) (path : string) (d : document F) : World F :=
  {| files := <[path := d]> (files w); faults := faults w; stdout := stdout w |}.

(** [with open(path, "r") as f: json.load(f)], as far as the checkpoint
    needs it: the document, or the exception. *)
Definition load_json (path : string) : M F (document F) :=
  fun w =>
    match files w !! path with
    | None => (Raise FileNotFoundError, w)
    | Some Unusable => (Raise Exception, w)
    | Some d => (Ret d, w)
    end.

(** [with open(path, "w") as f: json.dump(d, f)] *)
Definition dump_json (path : string) (d : document F) : M F unit :=
  fun w =>
    match faults w path with
    | NoFault => (Ret tt, set_file w path d)
    | OpenFails => (Raise Exception, w)
    | DumpFails => (Raise Exception, set_file w path Unusable)
    end.

End Monad.

#[global] Instance M_ret {F : Type} : MRet (M F) := fun A a => ret a.
#[global] Instance M_bind {F : Type} : MBind (M F) := fun A B k m => bind m k.

(** *** [main] *)

(** The parsed command line (lines 171-179). *)
Record Args : Type := {
  scryfall_json : string;
  batch_out : string;
  model : string;
  include_name : bool;
  limit : Z;
  offset : Z;
  checkpoint : string
}.

(** What [load_model] returns: the tag and an object with an [encode]
    method, which answers a list of rows or raises. *)
Record Encoder (F : Type) : Type := {
  enc_kind : kind;
  encode : list string -> option (list (list F))
}.
Arguments enc_kind {F}.
Arguments encode {F}.

(** The variables of the windowing loop (lines 210-216). *)
Record Window (F : Type) : Type := {
  win_i : Z;
  win_processed : Z;
  win_texts : list string;
  win_idx_map : list (string * list (string * pyval F))
}.
Arguments win_i {F}.
Arguments win_processed {F}.
Arguments win_texts {F}.
Arguments win_idx_map {F}.

Section Driver.
Context {F : Type} `{PyFloat F} `{JsonDumps}.

(** [int(state.get("next_offset", 0))] on the loaded document. *)
Definition cp_off_of (state : document F) : res Z :=
  match state with
  | BatchDoc _ => Ret 0
  | CheckpointDoc cp => Ret (next_offset cp)
  | ObjectDoc Missing => Ret 0
  | ObjectDoc (IntLike z) => Ret z
  | ObjectDoc NotIntLike => Raise Exception
  | Unusable => Raise Exception
  end.

(** Lines 196-208. *)
Definition resolve_start_offset (args : Args) : M F Z :=
  let start_offset := offset args in
  if truthy (checkpoint args) then
    try_except
      (state ← load_json (checkpoint args);
       cp_off ← lift (cp_off_of state);
       if (start_offset =? 0) && (cp_off >? 0) then mret cp_off
       else mret start_offset)
      (mret start_offset)
      (print WarnReadCheckpoint;; mret start_offset)
  else mret start_offset.

(** Lines 217-231: the loop over [cards], from the variables [w] on.  The
    second component is the part of [cards] the loop has not reached when
    it ends. *)
Fixpoint window_loop (start_offset lim : Z) (incl : bool)
    (cards : list (Card.t F)) (w : Window F) : Window F * list (Card.t F) :=
  match cards with
  | [] => (w, [])
  | c :: rest =>
      if win_i w <? start_offset then
        window_loop start_offset lim incl rest
          {| win_i := win_i w + 1; win_processed := win_processed w;
             win_texts := win_texts w; win_idx_map := win_idx_map w |}
      else
        match Card.id c with
        | Some (String a cid') =>
            let cid := String a cid' in
            let props := extract_props c in
            let text := build_embed_text c incl in
            let w' :=
              {| win_i := win_i w + 1; win_processed := win_processed w + 1;
                 win_texts := win_texts w ++ [text];
                 win_idx_map := win_idx_map w ++ [(cid, props)] |} in
            if negb (lim =? 0) && (win_processed w' >=? lim) then (w', rest)
            else window_loop start_offset lim incl rest w'
        | _ => window_loop start_offset lim incl rest w
        end
  end.

Definition window_init : Window F :=
  {| win_i := 0; win_processed := 0; win_texts := []; win_idx_map := [] |}.

(** [range(0, n, step)] for a positive [step]. *)
Definition range_step (n step : nat) : list nat :=
  map (fun k => k * step)%nat (seq 0 ((n + step - 1) / step)).

(** Lines 236-249: one batch. *)
Definition encode_step (mdl : Encoder F) (texts : list string) (batch_size : nat)
    (vectors : list (list F)) (i : nat) : option (list (list F)) :=
  let batch := take batch_size (drop i texts) in
  embs ← encode mdl batch;
  Some (vectors ++ map l2_normalize embs).

Fixpoint encode_loop (mdl : Encoder F) (texts : list string) (batch_size : nat)
    (vectors : list (list F)) (idxs : list nat) : option (list (list F)) :=
  match idxs with
  | [] => Some vectors
  | i :: idxs' =>
      vectors' ← encode_step mdl texts batch_size vectors i;
      encode_loop mdl texts batch_size vectors' idxs'
  end.

Definition encode_all (mdl : Encoder F) (batch_size : nat) (texts : list string)
  : option (list (list F)) :=
  encode_loop mdl texts batch_size [] (range_step (length texts) batch_size).

Definition batch_size_of (k : kind) : nat :=
  match k with kind_hf => 32 | kind_st => 64 end.

(** Lines 253-262. *)
Definition make_object (entry : string * list (string * pyval F)) (vec : list F)
  : OutputObject F :=
  {| obj_class := "Card"; obj_id := entry.1;
     obj_properties := clean_props entry.2; obj_vector := vec |}.

Definition make_objects (idx_map : list (string * list (string * pyval F)))
    (vectors : list (list F)) : list (OutputObject F) :=
  zip_with make_object idx_map vectors.

(** Lines 270-286. *)
Definition commit (args : Args) (knd : kind) (start_offset : Z)
    (objects : list (OutputObject F)) (total_cards : Z) : M F unit :=
  if truthy (checkpoint args) then
    let next_offset := start_offset + Z.of_nat (length objects) in
    let state :=
      {| next_offset := next_offset; total := total_cards;
         last_batch_out := batch_out args; cp_model := model args;
         cp_include_name := include_name args; cp_kind := knd |} in
    let warn := print WarnWriteCheckpoint in
    try_except
      (dump_json (checkpoint args) (CheckpointDoc state);;
       print (UpdatedCheckpoint (checkpoint args) next_offset total_cards))
      warn warn
  else mret tt.

(** [main] from line 210 on, with [cards] loaded and [start_offset]
    resolved.  The result is the list [objects]. *)
Definition run_from (args : Args) (mdl : Encoder F) (cards : list (Card.t F))
    (start_offset : Z) : M F (list (OutputObject F)) :=
  let total_cards := Z.of_nat (length cards) in
  let w := (window_loop start_offset (limit args) (include_name args) cards window_init).1 in
  let texts := win_texts w in
  let idx_map := win_idx_map w in
  let batch_size := batch_size_of (enc_kind mdl) in
  vectors ← match encode_all mdl batch_size texts with
            | Some vectors => mret vectors
            | None => raise Exception
            end;
  (if bool_decide (length vectors = length idx_map) then mret tt else raise Exception);;
  let objects := make_objects idx_map vectors in
  dump_json (batch_out args) (BatchDoc objects);;
  print (WroteBatch (length objects) (batch_out args));;
  commit args (enc_kind mdl) start_offset objects total_cards;;
  mret objects.

(** [main], from line 192 on.  [cards_doc] is what loading
    [args.scryfall_json] gives: the list of cards, or nothing when the
    file cannot be loaded. *)
Definition main (args : Args) (mdl : Encoder F)
    (cards_doc : option (list (Card.t F))) : M F (list (OutputObject F)) :=
  cards ← match cards_doc with Some cards => mret cards | None => raise Exception end;
  start_offset ← resolve_start_offset args;
  run_from args mdl cards start_offset.

End Driver.

End EmbedCards.

(** ** [scripts/make_dummy_vectors.py]: the sibling [extract_props] *)

Module MakeDummyVectors.

Section Props.
Context {F : Type}.

(** Lines 32-36: here the faces are filtered by a comprehension. *)
Definition props_oracle_text (card : Card.t F) : string :=
  let oracle_text := or_empty (Card.oracle_text card) in
  if negb (truthy oracle_text) then
    let faces := or_nil (Card.card_faces card) in
    let parts :=
      map (fun f => or_empty (Face.oracle_text f))
          (List.filter (fun f => truthy_opt (Face.oracle_text f)) faces) in
    join " || " parts
  else oracle_text.

End Props.

End MakeDummyVectors.

(** * The vocabulary of the specification *)

(** The words in which the properties of the card normalizer are stated. *)
Module NormalizerSpec.

Import EmbedCards.

(** The fragment a face contributes to the embedding input. *)
Definition face_fragment (f : Face.t) : string :=
  or_empty (Face.type_line f) +:+ " :: " +:+ or_empty (Face.oracle_text f).

(** A face counts when its type line or its oracle text is non-empty. *)
Definition face_qualifies (f : Face.t) : bool :=
  truthy_opt (Face.type_line f) || truthy_opt (Face.oracle_text f).

(** The colour table in the words of the specification. *)
Definition color_word (c : string) : string :=
  if String.eqb c "W" then "White"
  else if String.eqb c "U" then "Blue"
  else if String.eqb c "B" then "Black"
  else if String.eqb c "R" then "Red"
  else if String.eqb c "G" then "Green"
  else c.

(** The property oracle text in the words of the specification: the
    non-empty face oracle texts, joined. *)
Definition face_oracles (faces : list Face.t) : list string :=
  List.filter truthy (map (fun f => or_empty (Face.oracle_text f)) faces).

(** The line starts with the label of the oracle text. *)
Definition is_oracle_line (line : string) : bool := String.prefix "Oracle: " line.

Section Lines.
Context {F : Type}.

(** The five candidate lines, in their fixed order, each with the
    condition under which it is emitted. *)
Definition labeled_lines (card : Card.t F) (include_name : bool)
  : list (bool * string) :=
  [ (include_name && truthy_opt (Card.name card),
      "Name: " +:+ or_empty (Card.name card));
    (truthy_opt (Card.type_line card),
      "Type: " +:+ or_empty (Card.type_line card));
    (truthy_opt (Card.mana_cost card),
      "ManaCost: " +:+ or_empty (Card.mana_cost card));
    (true,
      "Colors: " +:+ colors_to_words (or_nil (Card.colors card)));
    (truthy (embed_oracle_text card),
      "Oracle: " +:+ embed_oracle_text card) ].

(** The lines that come before the oracle line.  They read the name, the
    type line, the mana cost and the colours of the card, never its faces. *)
Definition header_lines (card : Card.t F) (include_name : bool) : list string :=
  (if include_name && truthy_opt (Card.name card)
   then ["Name: " +:+ or_empty (Card.name card)] else [])
  ++ (if truthy_opt (Card.type_line card)
      then ["Type: " +:+ or_empty (Card.type_line card)] else [])
  ++ (if truthy_opt (Card.mana_cost card)
      then ["ManaCost: " +:+ or_empty (Card.mana_cost card)] else [])
  ++ ["Colors: " +:+ colors_to_words (or_nil (Card.colors card))].

(** The oracle value the faces give, in the words of the specification: the
    fragments of the qualifying faces, in face order, joined. *)
Definition face_oracle_value (card : Card.t F) : string :=
  join " || "
    (map face_fragment (List.filter face_qualifies (or_nil (Card.card_faces card)))).

End Lines.

End NormalizerSpec.

(** [l2_normalize] over the real numbers: the idealised reading of the
    function, which says what the arithmetic aims at and nothing about the
    rounding, overflow or underflow of binary64. *)
Module ExactArithmetic.

Definition exact_real : PyFloat R :=
  {| fzero := 0%R;
     fadd := Rplus;
     fmul := Rmult;
     fdiv := Rdiv;
     fsqrt := R_sqrt.sqrt;
     fle := fun x y => if Rle_dec x y then true else false |}.

End ExactArithmetic.

(** The words in which the properties of the checkpoint store and of the
    driver are stated. *)
Module DriverSpec.

Import EmbedCards.

Section Vocabulary.
Context {F : Type} `{PyFloat F} `{JsonDumps}.

(** The document the checkpoint path holds can be read as a checkpoint. *)
Definition readable (w : World F) (path : string) (cp_off : Z) : Prop :=
  exists state, files w !! path = Some state /\ cp_off_of state = Ret cp_off.

(** The path holds a document that cannot be read as a checkpoint. *)
Definition malformed (w : World F) (path : string) : Prop :=
  exists state e, files w !! path = Some state /\ cp_off_of state = Raise e.

(** The dictionary [commit] writes. *)
Definition committed_state (args : Args) (knd : kind) (start_offset : Z)
    (objects : list (OutputObject F)) (total_cards : Z) : CheckpointState :=
  {| next_offset := start_offset + Z.of_nat (length objects);
     total := total_cards;
     last_batch_out := batch_out args;
     cp_model := model args;
     cp_include_name := include_name args;
     cp_kind := knd |}.

(** The card has an identifier: [cid] is truthy at line 222. *)
Definition has_id (c : Card.t F) : bool := truthy_opt (Card.id c).

(** What the loop appends to [idx_map] for an accepted card. *)
Definition entry_of (c : Card.t F) : string * list (string * pyval F) :=
  (or_empty (Card.id c), extract_props c).

(** The loop variables after the cards [cs] have been accepted. *)
Definition accept (incl : bool) (w : Window F) (cs : list (Card.t F)) : Window F :=
  {| win_i := win_i w + Z.of_nat (length cs);
     win_processed := win_processed w + Z.of_nat (length cs);
     win_texts := win_texts w ++ map (fun c => build_embed_text c incl) cs;
     win_idx_map := win_idx_map w ++ map entry_of cs |}.

(** The cards up to and including the [q]-th one that has an identifier
    (the first one when [q] is zero), and the cards after it. *)
Fixpoint split_after_ids (q : nat) (cards : list (Card.t F))
  : list (Card.t F) * list (Card.t F) :=
  match cards with
  | [] => ([], [])
  | c :: rest =>
      if has_id c then
        match q with
        | S (S q') =>
            let pr := split_after_ids (S q') rest in (c :: pr.1, pr.2)
        | _ => ([c], rest)
        end
      else
        let pr := split_after_ids q rest in (c :: pr.1, pr.2)
  end.

(** The cards the loop examines once the offset is reached, and the cards
    it leaves. *)
Definition examine (lim processed : Z) (cards : list (Card.t F))
  : list (Card.t F) * list (Card.t F) :=
  if lim =? 0 then (cards, [])
  else split_after_ids (Z.to_nat (lim - processed)) cards.

(** The loop variables with the counter [i] changed. *)
Definition set_i (w : Window F) (i : Z) : Window F :=
  {| win_i := i; win_processed := win_processed w;
     win_texts := win_texts w; win_idx_map := win_idx_map w |}.

(** The cards a run examines from [window_init], and the cards it leaves. *)
Definition window_of (start_offset lim : Z) (cards : list (Card.t F))
  : list (Card.t F) * list (Card.t F) :=
  examine lim 0 (drop (Z.to_nat start_offset) cards).

(** The cards at the positions [from], ..., [to - 1]. *)
Definition slice (from to : nat) (cards : list (Card.t F)) : list (Card.t F) :=
  take (to - from) (drop from cards).

(** The index one past the last card a loop examined, given the cards it
    left. *)
Definition examined_end (cards rest : list (Card.t F)) : nat :=
  (length cards - length rest)%nat.

(** The encoder answers every batch with one row per text. *)
Definition well_behaved (mdl : Encoder F) : Prop :=
  forall batch, exists rows, encode mdl batch = Some rows /\ length rows = length batch.

(** The world after the batch file is written and announced. *)
Definition after_batch (args : Args) (objects : list (OutputObject F))
    (w : World F) : World F :=
  log_to (set_file w (batch_out args) (BatchDoc objects))
    [WroteBatch (length objects) (batch_out args)].

(** The identifier of a card that has one. *)
Definition card_id (c : Card.t F) : string := or_empty (Card.id c).

(** The identifiers of the cards at the positions [from], ..., [to - 1]
    that have one. *)
Definition ids_between (cards : list (Card.t F)) (from to : nat) : list string :=
  map card_id (List.filter has_id (slice from to cards)).

End Vocabulary.

End DriverSpec.

(** * Concrete cards and runs *)

Module Scenarios.

Import EmbedCards NormalizerSpec DriverSpec.

(** The double quote. *)
Definition quote : string := String (Ascii.ascii_of_nat 34) EmptyString.

(** [json.dumps] with compact separators on keys and values that need no
    escaping (printable ASCII without quote or backslash). *)
Definition dumps_plain (d : list (string * string)) : string :=
  "{" +:+ join ","
            (map (fun kv => quote +:+ kv.1 +:+ quote +:+ ":" +:+ quote +:+ kv.2 +:+ quote) d)
      +:+ "}".

#[local] Instance plain_json : JsonDumps := {| dumps_compact := dumps_plain |}.

(** A card with the given identifier, name, colours and faces and nothing
    else. *)
Definition card_of (id name : option string) (colors : option (list string))
    (faces : option (list Face.t)) : Card.t float :=
  Card.mk id name None None None None None None colors None None None None None
    None None None None faces.

Definition face_of (type_line oracle_text : option string) : Face.t :=
  Face.mk type_line oracle_text None.

(** A double-faced card without top-level oracle text. *)
Definition werewolf : Card.t float :=
  card_of (Some "w1") (Some "Village Ironsmith") (Some ["R"])
    (Some [ face_of (Some "Creature - Human") (Some "First strike");
            face_of (Some "Creature - Werewolf") None;
            face_of None (Some "Trample") ]).

(** An encoder that gives every text the same row. *)
Definition constant_encoder (k : kind) (row : list float) : Encoder float :=
  {| enc_kind := k; encode := fun batch => Some (map (fun _ => row) batch) |}.

(** *** One run over three cards, the last of which has no identifier *)

Definition three_cards : list (Card.t float) :=
  [ card_of (Some "a") (Some "Bolt") (Some ["R"]) None;
    card_of (Some "b") (Some "Counter") (Some []) None;
    card_of None None None None ].

(** [--limit 0 --offset 0], no checkpoint. *)
Definition plain_cli : Args :=
  {| scryfall_json := "cards.json"; batch_out := "batch.json";
     model := "Alibaba-NLP/gte-modernbert-base"; include_name := true;
     limit := 0; offset := 0; checkpoint := EmptyString |}.

(** *** Two runs over five cards, the second of which has no identifier *)

Definition five_cards : list (Card.t float) :=
  [ card_of (Some "a") (Some "Bolt") (Some ["R"]) None;
    card_of None (Some "Token") None None;
    card_of (Some "c") (Some "Counter") (Some []) None;
    card_of (Some "d") (Some "Growth") (Some ["G"]) None;
    card_of (Some "e") (Some "Relic") None None ].

(** [--checkpoint cp.json --limit 2 --offset k] *)
Definition args_with_offset (k : Z) : Args :=
  {| scryfall_json := "cards.json"; batch_out := "batch.json";
     model := "Alibaba-NLP/gte-modernbert-base"; include_name := false;
     limit := 2; offset := k; checkpoint := "cp.json" |}.

Definition cli : Args := args_with_offset 0.

Definition st_model : Encoder float := constant_encoder kind_st [3; 4]%float.

(** No file yet, every write succeeds. *)
Definition fresh : World float :=
  {| files := ∅; faults := fun _ => NoFault; stdout := [] |}.

Definition first_run := main cli st_model (Some five_cards) fresh.
Definition second_run := main cli st_model (Some five_cards) first_run.2.

Definition ids_of (r : res (list (OutputObject float))) : option (list string) :=
  match r with
  | Ret objects => Some (map obj_id objects)
  | Raise _ => None
  end.

Definition next_offset_at (w : World float) (path : string) : option Z :=
  match files w !! path with
  | Some (CheckpointDoc cp) => Some (next_offset cp)
  | _ => None
  end.

(** The world after the first run, on a disk that fills up while the
    checkpoint is rewritten. *)
Definition disk_full : World float :=
  {| files := files first_run.2;
     faults := fun path => if String.eqb path "cp.json" then DumpFails else NoFault;
     stdout := [] |}.

End Scenarios.

(** * The rest of the scripts *)

(** ** [scripts/embed_cards.py]: the fallback encoder of [load_model] *)

(** The class [HFEncoder] (lines 49-68). *)
Module HFEncoder.

Section Encode.
Context {F : Type}.

(** Lines 58-67: the tokenizer, the model and the masked mean over the
    tokens, applied to one chunk.  It answers the rows of [mean] or raises. *)
Variable embed_chunk : list string -> option (list (list F)).

(** [range(0, n, step)]: it raises for a step of zero and is empty for a
    negative step. *)
Definition py_range (n : nat) (step : Z) : option (list nat) :=
  if step =? 0 then None
  else if step <? 0 then Some []
  else Some (EmbedCards.range_step n (Z.to_nat step)).

(** Lines 56-67: the loop over the chunks, from [all_vecs] on. *)
Fixpoint encode_chunks (texts : list string) (batch_size : nat)
    (all_vecs : list (list F)) (idxs : list nat) : option (list (list F)) :=
  match idxs with
  | [] => Some all_vecs
  | i :: idxs' =>
      mean ← embed_chunk (take batch_size (drop i texts));
      encode_chunks texts batch_size (all_vecs ++ mean) idxs'
  end.

(** [HFEncoder.encode] (lines 54-68). *)
Definition encode (texts : list string) (batch_size : Z) : option (list (list F)) :=
  idxs ← py_range (length texts) batch_size;
  encode_chunks texts (Z.to_nat batch_size) [] idxs.

(** The pair [("hf", HFEncoder(tokenizer, model))] of line 70, called as
    [main] calls it at line 245: [model.encode(batch, batch_size=len(batch))]. *)
Definition as_encoder : EmbedCards.Encoder F :=
  {| EmbedCards.enc_kind := EmbedCards.kind_hf;
     EmbedCards.encode := fun batch => encode batch (Z.of_nat (length batch)) |}.

End Encode.

End HFEncoder.

(** ** [scripts/make_dummy_vectors.py] *)

(** The float operations of [make_vec] besides those of [l2_normalize]:
    [1.0] and the truth value of a float. *)
Class PyFloatTruth (F : Type) := {
  fone : F;
  ftruthy : F -> bool
}.

#[global] Instance binary64_truth : PyFloatTruth float := {
  fone := PrimFloat.one;
  ftruthy := fun x => negb (PrimFloat.eqb x PrimFloat.zero)
}.

Module DummyVectors.

Import EmbedCards.

Section Script.
Context {F : Type} `{PyFloat F} `{PyFloatTruth F} `{JsonDumps}.

(** The loop of [get_image] over the faces (lines 26-30). *)
Fixpoint get_image_faces (faces : list Face.t) (key : string) : string :=
  match faces with
  | [] => EmptyString
  | f :: faces' =>
      let fiu := default ∅ (Face.image_uris f) in
      match fiu !! key with
      | Some v => or_empty v
      | None => get_image_faces faces' key
      end
  end.

(** [get_image] (lines 21-30). *)
Definition get_image (card : Card.t F) (key : string) : string :=
  let iu := default ∅ (Card.image_uris card) in
  match iu !! key with
  | Some v => or_empty v
  | None => get_image_faces (or_nil (Card.card_faces card)) key
  end.

(** [extract_props] (lines 20-61). *)
Definition extract_props (card : Card.t F) : list (string * pyval F) :=
  let oracle_text := MakeDummyVectors.props_oracle_text card in
  let legalities_str :=
    match Card.legalities card with
    | Some (e :: l) => dumps_compact (e :: l)
    | _ => EmptyString
    end in
  [ ("scryfall_id", match Card.id card with Some s => PStr s | None => PNone end);
    ("name", match Card.name card with Some s => PStr s | None => PNone end);
    ("mana_cost", PStr (or_empty (Card.mana_cost card)));
    ("cmc", match Card.cmc card with Some x => PFloat x | None => PNone end);
    ("type_line", PStr (or_empty (Card.type_line card)));
    ("oracle_text", PStr oracle_text);
    ("power", PStr (or_empty (Card.power card)));
    ("toughness", PStr (or_empty (Card.toughness card)));
    ("colors", PList (or_nil (Card.colors card)));
    ("color_identity", PList (or_nil (Card.color_identity card)));
    ("keywords", PList (or_nil (Card.keywords card)));
    ("edhrec_rank", match Card.edhrec_rank card with Some z => PInt z | None => PNone end);
    ("set", PStr (or_empty (Card.set_code card)));
    ("collector_number", PStr (or_empty (Card.collector_number card)));
    ("rarity", PStr (or_empty (Card.rarity card)));
    ("layout", PStr (or_empty (Card.layout card)));
    ("image_small", PStr (get_image card "small"));
    ("image_normal", PStr (get_image card "normal"));
    ("legalities", PStr legalities_str) ].

(** The [k]-th draw [rnd.uniform(-1.0, 1.0)] of the generator that line 67
    seeds with the SHA-256 digest of [seed]. *)
Variable uniform : string -> nat -> F.

(** [make_vec] (lines 64-70). *)
Definition make_vec (seed : string) (dim : Z) : list F :=
  let v := map (uniform seed) (seq 0 (Z.to_nat dim)) in
  let n0 := fsqrt (sum_squares v) in
  let n := if ftruthy n0 then n0 else fone in
  map (fun x => fdiv x n) v.

(** Line 90: the sum of [props.get("name", c["id"])] and of the type line
    of [props], which is a string.
    The key [name] is always in [props], so a card without name gives
    [None] and the sum raises. *)
Definition seed_of (c : Card.t F) : res string :=
  match Card.name c with
  | Some n => Ret (n +:+ or_empty (Card.type_line c))
  | None => Raise Exception
  end.

(** Lines 86-100: the loop of [main], from [objs] and [count] on. *)
Fixpoint dummy_loop (lim dim : Z) (cards : list (Card.t F))
    (objs : list (OutputObject F)) (count : Z) : res (list (OutputObject F)) :=
  match cards with
  | [] => Ret objs
  | c :: rest =>
      match Card.id c with
      | Some (String a cid') =>
          let props := extract_props c in
          match seed_of c with
          | Raise e => Raise e
          | Ret seed =>
              let vec := make_vec seed dim in
              let clean := clean_props props in
              let objs' :=
                objs ++ [ {| obj_class := "Card"; obj_id := String a cid';
                             obj_properties := clean; obj_vector := vec |} ] in
              let count' := count + 1 in
              if negb (lim =? 0) && (count' >=? lim) then Ret objs'
              else dummy_loop lim dim rest objs' count'
          end
      | _ => dummy_loop lim dim rest objs count
      end
  end.

(** Lines 84-100: the list [objs] that [main] writes. *)
Definition dummy_objects (lim dim : Z) (cards : list (Card.t F))
  : res (list (OutputObject F)) :=
  dummy_loop lim dim cards [] 0.

End Script.

End DummyVectors.

(** ** [scripts/download_scryfall.py] *)

Module DownloadScryfall.

(** An entry of the [data] list of the bulk-data index: its [type] and its
    [download_uri], [None] when the key is absent or null. *)
Record BulkItem : Type := {
  item_type : option string;
  download_uri : option string
}.

(** Lines 24-28: the value of [url] after the loop. *)
Fixpoint find_url (kind : string) (items : list BulkItem) : option string :=
  match items with
  | [] => None
  | item :: items' =>
      if bool_decide (item_type item = Some kind) then download_uri item
      else find_url kind items'
  end.

(** How [main] ends: [sys.exit(1)] at line 31, an exception of [urlopen] or
    [json.load], or the write of [data] to [path] at lines 34-38. *)
Inductive outcome : Type :=
| Exit1
| Raised
| Save (path data : string).

(** [main] (lines 15-38).  [index] is the [data] list of the index document,
    or nothing when it cannot be fetched or decoded; [urlopen] gives the
    body behind a URL or raises. *)
Definition main (kind out : string) (index : option (list BulkItem))
    (urlopen : string -> option string) : outcome :=
  match index with
  | None => Raised
  | Some items =>
      let url := find_url kind items in
      if negb (truthy_opt url) then Exit1
      else
        match urlopen (or_empty url) with
        | None => Raised
        | Some data => Save out data
        end
  end.

End DownloadScryfall.

(** ** More vocabulary *)

Module RunSpec.

Import EmbedCards DriverSpec.

(** The first [lim] elements, all of them when [lim] is zero, one when it
    is negative. *)
Definition limit_take {A : Type} (lim : Z) (l : list A) : list A :=
  if lim =? 0 then l else take (Z.to_nat (Z.max 1 lim)) l.

(** The keys of a property record, in the order of the dictionary. *)
Definition props_keys : list string :=
  [ "scryfall_id"; "name"; "mana_cost"; "cmc"; "type_line"; "oracle_text";
    "power"; "toughness"; "colors"; "color_identity"; "keywords";
    "edhrec_rank"; "set"; "collector_number"; "rarity"; "layout";
    "image_small"; "image_normal"; "legalities" ].

(** The keys whose value is a string whatever the card holds. *)
Definition string_keys : list string :=
  [ "mana_cost"; "type_line"; "oracle_text"; "power"; "toughness"; "set";
    "collector_number"; "rarity"; "layout"; "image_small"; "image_normal";
    "legalities" ].

(** The keys whose value is a list whatever the card holds. *)
Definition list_keys : list string := [ "colors"; "color_identity"; "keywords" ].

Section Vocabulary.
Context {F : Type} `{PyFloat F} `{JsonDumps}.

(** The cards a run turns into objects: those with an identifier from the
    offset on, up to the limit. *)
Definition selected (start_offset lim : Z) (cards : list (Card.t F)) : list (Card.t F) :=
  limit_take lim (List.filter has_id (drop (Z.to_nat start_offset) cards)).

(** The object of a card when the encoder gives the text [t] the row [f t]. *)
Definition object_of (f : string -> list F) (incl : bool) (c : Card.t F)
  : OutputObject F :=
  {| obj_class := "Card"; obj_id := card_id c;
     obj_properties := clean_props (extract_props c);
     obj_vector := l2_normalize (f (build_embed_text c incl)) |}.

(** The value is a string. *)
Definition is_str (v : option (pyval F)) : bool :=
  match v with
  | Some (PStr _) => true
  | _ => false
  end.

(** The value is a list. *)
Definition is_list (v : option (pyval F)) : bool :=
  match v with
  | Some (PList _) => true
  | _ => false
  end.

(** The image maps [get_image] consults, in its order: the card's own, then
    those of its faces. *)
Definition uri_sources (card : Card.t F) : list (gmap string (option string)) :=
  or_no_uris (Card.image_uris card)
  :: map (fun f => or_no_uris (Face.image_uris f)) (or_nil (Card.card_faces card)).

(** The card has a name, possibly empty. *)
Definition has_name (c : Card.t F) : bool :=
  match Card.name c with
  | Some _ => true
  | None => false
  end.

(** The encoder answers every batch that is not empty with one row per
    text.  The driver never hands it an empty batch. *)
Definition answers_rows (mdl : Encoder F) : Prop :=
  forall batch, batch <> [] ->
  exists rows, encode mdl batch = Some rows /\ length rows = length batch.

End Vocabulary.

End RunSpec.

(** ** Vocabulary of the dummy batch *)

Module DummySpec.

Import EmbedCards DriverSpec.

Section Vocabulary.
Context {F : Type} `{PyFloat F} `{PyFloatTruth F} `{JsonDumps}.

(** The object [make_dummy_vectors.py] writes for a card that has an
    identifier and a name, with [uniform] for the draws of the generator. *)
Definition dummy_object_of (uniform : string -> nat -> F) (dim : Z) (c : Card.t F)
  : OutputObject F :=
  {| obj_class := "Card"; obj_id := card_id c;
     obj_properties := clean_props (extract_props c);
     obj_vector :=
       DummyVectors.make_vec uniform
         (or_empty (Card.name c) +:+ or_empty (Card.type_line c)) dim |}.

End Vocabulary.

End DummySpec.

(** * More concrete runs *)

Module MoreScenarios.

Import EmbedCards DriverSpec RunSpec Scenarios.

#[local] Existing Instance plain_json.

(** An encoder whose [encode] raises on every batch. *)
Definition failing_encoder : Encoder float :=
  {| enc_kind := kind_st; encode := fun _ => None |}.

(** The list [objects] of a run that reached its end. *)
Definition objects_of (r : res (list (OutputObject float))) : list (OutputObject float) :=
  match r with
  | Ret objects => objects
  | Raise _ => []
  end.

(** Four cards, each with an identifier. *)
Definition four_cards : list (Card.t float) :=
  [ card_of (Some "a") (Some "Bolt") (Some ["R"]) None;
    card_of (Some "c") (Some "Counter") (Some []) None;
    card_of (Some "d") (Some "Growth") (Some ["G"]) None;
    card_of (Some "e") (Some "Relic") None None ].

(** A tokenizer and model that give every text of a chunk the same row. *)
Definition chunk_rows (chunk : list string) : option (list (list float)) :=
  Some (map (fun _ => [3; 4]%float) chunk).

(** A generator whose every draw is one half. *)
Definition uniform_half (seed : string) (k : nat) : float := 0.5%float.

(** [--limit 2], no checkpoint, no offset. *)
Definition limit_two_cli : Args :=
  {| scryfall_json := "cards.json"; batch_out := "batch.json";
     model := "Alibaba-NLP/gte-modernbert-base"; include_name := false;
     limit := 2; offset := 0; checkpoint := EmptyString |}.

(** The run of [embed_cards.py] that the dummy batch is compared with. *)
Definition limit_two_run := main limit_two_cli st_model (Some five_cards) fresh.

(** The run that fails in the encoder. *)
Definition failed_run := main cli failing_encoder (Some five_cards) fresh.

(** The run that starts past the last card. *)
Definition past_end_cli : Args := args_with_offset 5.

End MoreScenarios.

(** ** Vocabulary of the normalisation on binary64 *)

Module Binary64Spec.

Import SpecFloat.
Import EmbedCards.

(** The value, read as the IEEE 754 datum it stands for, is a NaN or has
    the sign bit of a positive number. *)
Definition not_negative (x : spec_float) : bool :=
  match x with
  | S754_zero s | S754_infinity s | S754_finite s _ _ => negb s
  | S754_nan => true
  end.

(** The Euclidean norm as floats compute it. *)
Definition norm_of (vec : list float) : float := fsqrt (sum_squares vec).

(** The norm is 1 within the tolerance [tol]. *)
Definition near_unit (tol : float) (vec : list float) : bool :=
  PrimFloat.leb (PrimFloat.abs (PrimFloat.sub (norm_of vec) 1%float)) tol.

(** Every component is a zero. *)
Definition all_zero (vec : list float) : bool :=
  forallb (fun x => PrimFloat.eqb x 0%float) vec.

(** What the specification promises of the vector written for the raw vector
    [vec]: norm 1 within the tolerance, or the raw vector when that is all
    zero. *)
Definition unit_or_zero (tol : float) (vec : list float) : bool :=
  near_unit tol (l2_normalize vec) || all_zero vec.

(** A raw vector whose squares underflow. *)
Definition tiny_row : list float := [1e-200; 3e-200]%float.

End Binary64Spec.

(** * Properties of the card normalizer *)

Module NormalizerFacts.

Import EmbedCards NormalizerSpec.

Section Facts.
Context {F : Type}.

Lemma truthy_or_empty (o : option string) :
  truthy (or_empty o) = truthy_opt o.
Proof. destruct o as [[|a s]|]; reflexivity. Qed.

Lemma embed_faces_fold (faces : list Face.t) (parts : list string) :
  fold_left embed_face_step faces parts
  = parts ++ map face_fragment (List.filter face_qualifies faces).
Proof.
  revert parts.
  induction faces as [|f faces IH]; intros parts; simpl.
  - now rewrite app_nil_r.
  - rewrite IH. unfold embed_face_step, face_qualifies.
    rewrite !truthy_or_empty.
    destruct (truthy_opt (Face.type_line f) || truthy_opt (Face.oracle_text f)).
    + simpl. now rewrite <- app_assoc.
    + reflexivity.
Qed.

Lemma props_faces_fold (faces : list Face.t) (parts : list string) :
  fold_left props_face_step faces parts
  = parts ++ List.filter truthy (map (fun f => or_empty (Face.oracle_text f)) faces).
Proof.
  revert parts.
  induction faces as [|f faces IH]; intros parts; simpl.
  - now rewrite app_nil_r.
  - rewrite IH. unfold props_face_step.
    destruct (truthy (or_empty (Face.oracle_text f))).
    + now rewrite <- app_assoc.
    + reflexivity.
Qed.

Lemma mapping_get_color_word (c : string) : mapping_get c = color_word c.
Proof.
  unfold mapping_get, color_word, mapping. simpl.
  destruct (String.eqb_spec c "W") as [->|HW]; [reflexivity|].
  destruct (String.eqb_spec c "U") as [->|HU]; [reflexivity|].
  destruct (String.eqb_spec c "B") as [->|HB]; [reflexivity|].
  destruct (String.eqb_spec c "R") as [->|HR]; [reflexivity|].
  destruct (String.eqb_spec c "G") as [->|HG]; [reflexivity|].
  rewrite !lookup_insert_ne by congruence.
  now rewrite lookup_empty.
Qed.

Lemma face_oracles_comprehension (faces : list Face.t) :
  map (fun f => or_empty (Face.oracle_text f))
      (List.filter (fun f => truthy_opt (Face.oracle_text f)) faces)
  = face_oracles faces.
Proof.
  unfold face_oracles.
  induction faces as [|f faces IH]; simpl; [reflexivity|].
  rewrite truthy_or_empty.
  destruct (truthy_opt (Face.oracle_text f)); simpl; now rewrite IH.
Qed.

Lemma face_oracles_ext (faces faces' : list Face.t) :
  map Face.oracle_text faces' = map Face.oracle_text faces ->
  face_oracles faces' = face_oracles faces.
Proof.
  intros Heq. unfold face_oracles.
  rewrite <- !(map_map Face.oracle_text or_empty). now rewrite Heq.
Qed.

Lemma embed_oracle_text_faces (card : Card.t F) :
  truthy_opt (Card.oracle_text card) = false ->
  embed_oracle_text card
  = join " || "
      (map face_fragment (List.filter face_qualifies (or_nil (Card.card_faces card)))).
Proof.
  intros Hf. unfold embed_oracle_text. rewrite Hf. simpl.
  now rewrite embed_faces_fold.
Qed.

Lemma embed_oracle_text_top (card : Card.t F) (s : string) :
  Card.oracle_text card = Some s -> truthy s = true ->
  embed_oracle_text card = s.
Proof.
  intros Hs Ht. unfold embed_oracle_text. rewrite Hs. simpl. now rewrite Ht.
Qed.

Lemma build_embed_fields_lines (card : Card.t F) (include_name : bool) :
  build_embed_fields card include_name
  = map snd (List.filter fst (labeled_lines card include_name)).
Proof.
  unfold build_embed_fields, labeled_lines.
  rewrite !truthy_or_empty. cbn [List.filter fst].
  destruct (include_name && truthy_opt (Card.name card)),
    (truthy_opt (Card.type_line card)), (truthy_opt (Card.mana_cost card)),
    (truthy (embed_oracle_text card)); reflexivity.
Qed.

Lemma truthy_app (a b : string) : truthy (a +:+ b) = truthy a || truthy b.
Proof. now destruct a. Qed.

Lemma face_fragment_truthy (f : Face.t) : truthy (face_fragment f) = true.
Proof.
  unfold face_fragment. rewrite !truthy_app. simpl.
  now rewrite Bool.orb_true_r.
Qed.

Lemma join_fragments_truthy (faces : list Face.t) :
  faces <> [] -> truthy (join " || " (map face_fragment faces)) = true.
Proof.
  destruct faces as [|f [|f' faces]]; [contradiction| |]; intros _; simpl.
  - apply face_fragment_truthy.
  - now rewrite truthy_app, face_fragment_truthy.
Qed.

Lemma build_embed_fields_header (card : Card.t F) (include_name : bool) :
  build_embed_fields card include_name
  = header_lines card include_name
    ++ (if truthy (embed_oracle_text card)
        then ["Oracle: " +:+ embed_oracle_text card] else []).
Proof.
  rewrite build_embed_fields_lines. unfold labeled_lines, header_lines.
  cbn [List.filter fst].
  destruct (include_name && truthy_opt (Card.name card)),
    (truthy_opt (Card.type_line card)), (truthy_opt (Card.mana_cost card)),
    (truthy (embed_oracle_text card)); reflexivity.
Qed.

(** C2: when the top-level oracle text is absent or empty, the oracle value
    of [build_embed_text] is the [" || "]-join, in face order, of
    ["<type line> :: <oracle text>"] over the faces whose type line or
    oracle text is non-empty, and it reaches the output: when a face
    qualifies the value is not empty and the text returned ends with the
    line [Oracle:] followed by it, after the lines that do not depend on the
    faces; when no face qualifies it is the empty string and no [Oracle:]
    line is emitted; a non-empty top-level oracle text is used unchanged,
    whatever the faces hold. *)
Theorem embed_oracle_resolution (card : Card.t F) (include_name : bool) :
  (truthy_opt (Card.oracle_text card) = false ->
     embed_oracle_text card
     = join " || "
         (map face_fragment
            (List.filter face_qualifies (or_nil (Card.card_faces card)))))
  /\ (truthy_opt (Card.oracle_text card) = false ->
      List.filter face_qualifies (or_nil (Card.card_faces card)) = [] ->
      embed_oracle_text card = EmptyString
      /\ forallb (fun line => negb (is_oracle_line line))
           (build_embed_fields card include_name) = true)
  /\ (forall s, Card.oracle_text card = Some s -> truthy s = true ->
      embed_oracle_text card = s
      /\ last (build_embed_fields card include_name) = Some ("Oracle: " +:+ s))
  /\ (truthy_opt (Card.oracle_text card) = false ->
      List.filter face_qualifies (or_nil (Card.card_faces card)) <> [] ->
      truthy (face_oracle_value card) = true
      /\ build_embed_fields card include_name
         = header_lines card include_name ++ ["Oracle: " +:+ face_oracle_value card]
      /\ build_embed_text card include_name
         = join newline
             (header_lines card include_name
              ++ ["Oracle: " +:+ face_oracle_value card]))
  /\ (truthy_opt (Card.oracle_text card) = false ->
      List.filter face_qualifies (or_nil (Card.card_faces card)) = [] ->
      build_embed_fields card include_name = header_lines card include_name
      /\ build_embed_text card include_name
         = join newline (header_lines card include_name))
  /\ (forall s, Card.oracle_text card = Some s -> truthy s = true ->
      build_embed_fields card include_name
      = header_lines card include_name ++ ["Oracle: " +:+ s]
      /\ build_embed_text card include_name
         = join newline (header_lines card include_name ++ ["Oracle: " +:+ s])).
Proof.
  split; [apply embed_oracle_text_faces|]. split; [|split; [|split; [|split]]].
  - intros Hf Hnone.
    pose proof (embed_oracle_text_faces card Hf) as Ho.
    rewrite Hnone in Ho. simpl in Ho. split; [exact Ho|].
    rewrite build_embed_fields_lines. unfold labeled_lines. rewrite Ho.
    cbn [List.filter fst truthy].
    destruct (include_name && truthy_opt (Card.name card)),
      (truthy_opt (Card.type_line card)), (truthy_opt (Card.mana_cost card));
      reflexivity.
  - intros s Hs Ht.
    pose proof (embed_oracle_text_top card s Hs Ht) as Ho.
    split; [exact Ho|].
    rewrite build_embed_fields_lines. unfold labeled_lines. rewrite Ho, Ht.
    cbn [List.filter fst].
    destruct (include_name && truthy_opt (Card.name card)),
      (truthy_opt (Card.type_line card)), (truthy_opt (Card.mana_cost card));
      reflexivity.
  - intros Hf Hsome.
    pose proof (embed_oracle_text_faces card Hf) as Ho.
    fold (face_oracle_value card) in Ho.
    assert (truthy (face_oracle_value card) = true) as Ht.
    { unfold face_oracle_value. now apply join_fragments_truthy. }
    split; [exact Ht|].
    assert (build_embed_fields card include_name
            = header_lines card include_name ++ ["Oracle: " +:+ face_oracle_value card])
      as Hfields by now rewrite build_embed_fields_header, Ho, Ht.
    split; [exact Hfields|]. unfold build_embed_text. now rewrite Hfields.
  - intros Hf Hnone.
    pose proof (embed_oracle_text_faces card Hf) as Ho.
    rewrite Hnone in Ho. simpl in Ho.
    assert (build_embed_fields card include_name = header_lines card include_name)
      as Hfields.
    { rewrite build_embed_fields_header, Ho. simpl. apply app_nil_r. }
    split; [exact Hfields|]. unfold build_embed_text. now rewrite Hfields.
  - intros s Hs Ht.
    pose proof (embed_oracle_text_top card s Hs Ht) as Ho.
    assert (build_embed_fields card include_name
            = header_lines card include_name ++ ["Oracle: " +:+ s]) as Hfields
      by now rewrite build_embed_fields_header, Ho, Ht.
    split; [exact Hfields|]. unfold build_embed_text. now rewrite Hfields.
Qed.

(** C3: [build_embed_text] is the newline-join of the lines Name, Type,
    ManaCost, Colors, Oracle in this order, each emitted under its
    condition, the Colors line always; the colours read [Colorless] when
    empty or absent and are otherwise the table's words (unknown codes
    unchanged) joined by a slash; equal inputs give equal strings. *)
Theorem embed_text_lines (card : Card.t F) (include_name : bool) :
  build_embed_text card include_name
  = join newline (map snd (List.filter fst (labeled_lines card include_name)))
  /\ In ("Colors: " +:+ colors_to_words (or_nil (Card.colors card)))
        (build_embed_fields card include_name)
  /\ (or_nil (Card.colors card) = [] ->
      colors_to_words (or_nil (Card.colors card)) = "Colorless")
  /\ (forall c cs,
      colors_to_words (c :: cs) = join "/" (map color_word (c :: cs)))
  /\ (forall card' include_name',
      card' = card -> include_name' = include_name ->
      build_embed_text card' include_name' = build_embed_text card include_name).
Proof.
  split; [|split; [|split; [|split]]].
  - unfold build_embed_text. now rewrite build_embed_fields_lines.
  - rewrite build_embed_fields_lines. unfold labeled_lines.
    cbn [List.filter fst].
    destruct (include_name && truthy_opt (Card.name card)),
      (truthy_opt (Card.type_line card)), (truthy_opt (Card.mana_cost card)),
      (truthy (embed_oracle_text card)); simpl; tauto.
  - intros ->. reflexivity.
  - intros c cs. unfold colors_to_words. f_equal.
    apply map_ext. intros a. apply mapping_get_color_word.
  - intros card' include_name' -> ->. reflexivity.
Qed.

(** C4: when the top-level oracle text is absent or empty, the
    [oracle_text] property is the [" || "]-join of the non-empty face
    oracle texts, in face order, in both scripts; it does not depend on
    the faces' type lines, whereas the embedding input is built from the
    fragments that carry them. *)
Theorem props_oracle_resolution `{JsonDumps} (card : Card.t F)
    (Hfalsy : truthy_opt (Card.oracle_text card) = false) :
  props_oracle_text card
  = join " || " (face_oracles (or_nil (Card.card_faces card)))
  /\ dict_get "oracle_text" (extract_props card)
     = Some (PStr (props_oracle_text card))
  /\ MakeDummyVectors.props_oracle_text card = props_oracle_text card
  /\ (forall card' : Card.t F,
      truthy_opt (Card.oracle_text card') = false ->
      map Face.oracle_text (or_nil (Card.card_faces card'))
      = map Face.oracle_text (or_nil (Card.card_faces card)) ->
      props_oracle_text card' = props_oracle_text card)
  /\ embed_oracle_text card
     = join " || "
         (map face_fragment
            (List.filter face_qualifies (or_nil (Card.card_faces card)))).
Proof.
  assert (Hp : forall c : Card.t F, truthy_opt (Card.oracle_text c) = false ->
            props_oracle_text c
            = join " || " (face_oracles (or_nil (Card.card_faces c)))).
  { intros c Hc. unfold props_oracle_text. rewrite Hc. simpl.
    now rewrite props_faces_fold. }
  split; [now apply Hp|]. split; [reflexivity|]. split; [|split].
  - unfold MakeDummyVectors.props_oracle_text.
    rewrite truthy_or_empty, Hfalsy. simpl.
    rewrite face_oracles_comprehension. symmetry. now apply Hp.
  - intros card' Hc' Heq. rewrite !Hp by assumption.
    f_equal. now apply face_oracles_ext.
  - now apply embed_oracle_text_faces.
Qed.

(** C9: every key left in the properties of an output object has a value
    other than [None], for every object of a batch; [cmc] and
    [edhrec_rank] are there, as a float and an integer, exactly when the
    card has them, and so are the name and the identifier. *)
Theorem clean_props_no_null `{JsonDumps} (card : Card.t F) :
  forallb (fun kv => negb (is_none kv.2)) (clean_props (extract_props card)) = true
  /\ dict_get "cmc" (clean_props (extract_props card)) = PFloat <$> Card.cmc card
  /\ dict_get "edhrec_rank" (clean_props (extract_props card))
     = PInt <$> Card.edhrec_rank card
  /\ dict_get "name" (clean_props (extract_props card)) = PStr <$> Card.name card
  /\ dict_get "scryfall_id" (clean_props (extract_props card))
     = PStr <$> Card.id card
  /\ (forall (entry : string * list (string * pyval F)) (vec : list F),
      obj_properties (make_object entry vec) = clean_props entry.2
      /\ forallb (fun kv => negb (is_none kv.2))
           (obj_properties (make_object entry vec)) = true)
  /\ (forall (idx_map : list (string * list (string * pyval F)))
             (vectors : list (list F)),
      forallb (fun o => forallb (fun kv => negb (is_none kv.2)) (obj_properties o))
        (make_objects idx_map vectors) = true).
Proof.
  assert (Hclean : forall p : list (string * pyval F),
            forallb (fun kv => negb (is_none kv.2)) (clean_props p) = true).
  { intros p. unfold clean_props.
    induction p as [|kv p IH]; simpl; [reflexivity|].
    destruct (negb (is_none kv.2)) eqn:E; simpl; [now rewrite E|exact IH]. }
  split; [apply Hclean|].
  split; [|split; [|split; [|split; [|split]]]];
    try (unfold clean_props, extract_props, opt_str;
         destruct (Card.id card), (Card.name card), (Card.cmc card),
           (Card.edhrec_rank card); reflexivity).
  - intros entry vec. split; [reflexivity|apply Hclean].
  - intros idx_map. unfold make_objects.
    induction idx_map as [|e idx_map IH]; intros [|v vectors]; simpl;
      try reflexivity.
    rewrite IH, Bool.andb_true_r. apply Hclean.
Qed.

End Facts.

End NormalizerFacts.

(** * Properties of the batch encoder *)

Module EncoderFacts.

Import EmbedCards.

Section Facts.
Context {F : Type} `{PyFloat F}.

Variable mdl : Encoder F.
Variable f : string -> list F.

(** The encoder is pointwise: a row depends on its own text only. *)
Hypothesis encode_pointwise : forall batch, encode mdl batch = Some (map f batch).

Lemma encode_step_pointwise (texts : list string) (bs i : nat) (vectors : list (list F)) :
  encode_step mdl texts bs vectors i
  = Some (vectors ++ map (fun t => l2_normalize (f t)) (take bs (drop i texts))).
Proof.
  unfold encode_step. rewrite encode_pointwise. simpl.
  now rewrite map_map.
Qed.

Lemma encode_loop_pointwise (texts : list string) (bs m : nat) :
  forall (a : nat) (vectors : list (list F)),
  encode_loop mdl texts bs vectors (map (fun k => k * bs)%nat (seq a m))
  = Some (vectors
          ++ map (fun t => l2_normalize (f t)) (take (m * bs) (drop (a * bs) texts))).
Proof.
  induction m as [|m IH]; intros a vectors.
  - simpl. now rewrite app_nil_r.
  - cbn [seq map encode_loop].
    rewrite encode_step_pointwise. cbn [mbind option_bind].
    rewrite IH, <- app_assoc, <- map_app. do 3 f_equal.
    replace (S a * bs)%nat with (a * bs + bs)%nat by lia.
    rewrite <- drop_drop.
    replace (S m * bs)%nat with (bs + m * bs)%nat by lia.
    apply take_take_drop.
Qed.

Lemma range_step_covers (n bs : nat) :
  (0 < bs)%nat -> (n <= (n + bs - 1) / bs * bs)%nat.
Proof.
  intros Hbs.
  pose proof (Nat.div_mod (n + bs - 1) bs ltac:(lia)) as Hdm.
  pose proof (Nat.mod_upper_bound (n + bs - 1) bs ltac:(lia)) as Hlt.
  nia.
Qed.

Lemma encode_all_map (texts : list string) (bs : nat) :
  (0 < bs)%nat ->
  encode_all mdl bs texts = Some (map (fun t => l2_normalize (f t)) texts).
Proof.
  intros Hbs. unfold encode_all, range_step.
  rewrite encode_loop_pointwise. simpl. rewrite drop_0.
  rewrite take_ge by now apply range_step_covers.
  reflexivity.
Qed.

End Facts.

(** C6: with a pointwise encoder the batch encoder returns one normalised
    vector per text, in the order of the texts, whatever the batch size: the
    batch size of the script and a batch size of one give the same list. *)
Theorem encode_all_pointwise {F : Type} `{PyFloat F} (mdl : Encoder F)
    (f : string -> list F) (bs : nat) (texts : list string)
    (Hbs : (0 < bs)%nat)
    (Hpoint : forall batch, encode mdl batch = Some (map f batch)) :
  encode_all mdl bs texts = Some (map (fun t => l2_normalize (f t)) texts)
  /\ (exists vectors, encode_all mdl bs texts = Some vectors
        /\ length vectors = length texts)
  /\ (forall bs', (0 < bs')%nat -> encode_all mdl bs' texts = encode_all mdl bs texts)
  /\ encode_all mdl (batch_size_of (enc_kind mdl)) texts = encode_all mdl 1 texts.
Proof.
  pose proof (encode_all_map mdl f Hpoint texts) as Hall.
  split; [now apply Hall|]. split; [|split].
  - eexists. split; [now apply Hall|]. now rewrite length_map.
  - intros bs' Hbs'. now rewrite !Hall.
  - rewrite !Hall; [reflexivity|lia|destruct (enc_kind mdl); simpl; lia].
Qed.

End EncoderFacts.

(** * Normalisation in exact arithmetic *)

Module ExactFacts.

Import EmbedCards ExactArithmetic.

#[local] Existing Instance exact_real.

Local Open Scope R_scope.

Lemma sum_squares_acc (vec : list R) :
  forall acc : R,
  fold_left (fun acc v => acc + v * v) vec acc
  = acc + fold_left (fun acc v => acc + v * v) vec 0.
Proof.
  induction vec as [|v vec IH]; intros acc; simpl.
  - lra.
  - rewrite IH, (IH (0 + v * v)). lra.
Qed.

Lemma sum_squares_cons (v : R) (vec : list R) :
  sum_squares (v :: vec) = v * v + sum_squares vec.
Proof.
  unfold sum_squares. simpl. rewrite sum_squares_acc. lra.
Qed.

Lemma sum_squares_nonneg (vec : list R) : 0 <= sum_squares vec.
Proof.
  induction vec as [|v vec IH].
  - unfold sum_squares. simpl. lra.
  - rewrite sum_squares_cons. pose proof (Rle_0_sqr v) as Hv. unfold Rsqr in Hv. lra.
Qed.

Lemma sum_squares_zero (vec : list R) :
  sum_squares vec <= 0 -> Forall (fun v => v = 0) vec.
Proof.
  induction vec as [|v vec IH]; intros Hs; [constructor|].
  rewrite sum_squares_cons in Hs.
  pose proof (sum_squares_nonneg vec) as Hvec.
  pose proof (Rle_0_sqr v) as Hv. unfold Rsqr in Hv.
  constructor.
  - apply Rsqr_0_uniq. unfold Rsqr. lra.
  - apply IH. lra.
Qed.

Lemma sum_squares_scaled (vec : list R) (n : R) :
  n <> 0 ->
  sum_squares (map (fun v => v / n) vec) = sum_squares vec / (n * n).
Proof.
  intros Hn. induction vec as [|v vec IH].
  - unfold sum_squares. simpl. field. exact Hn.
  - simpl map. rewrite !sum_squares_cons, IH. field. exact Hn.
Qed.

(** Over the reals a vector whose sum of squares is not positive is the zero
    vector and is returned as it is; any other vector comes back with
    Euclidean norm one. *)
Lemma l2_normalize_exact (vec : list R) :
  (sum_squares vec <= 0 ->
   l2_normalize vec = vec /\ Forall (fun v => v = 0) vec)
  /\ (0 < sum_squares vec ->
      l2_normalize vec = map (fun v => v / R_sqrt.sqrt (sum_squares vec)) vec
      /\ R_sqrt.sqrt (sum_squares (l2_normalize vec)) = 1).
Proof.
  unfold l2_normalize. simpl fle. simpl fzero.
  split; intros Hs.
  - destruct (Rle_dec (sum_squares vec) 0) as [_|Hn]; [|contradiction].
    split; [reflexivity|now apply sum_squares_zero].
  - destruct (Rle_dec (sum_squares vec) 0) as [Hle|_]; [lra|].
    split; [reflexivity|].
    simpl fsqrt. simpl fdiv.
    rewrite sum_squares_scaled by (apply Rgt_not_eq, sqrt_lt_R0, Hs).
    rewrite sqrt_sqrt by lra.
    replace (sum_squares vec / sum_squares vec) with 1 by (field; lra).
    apply sqrt_1.
Qed.

End ExactFacts.

(** * Properties of the checkpoint store and of the driver *)

Module DriverFacts.

Import EmbedCards DriverSpec.

Section Checkpoint.
Context {F : Type} `{PyFloat F} `{JsonDumps}.

Lemma log_to_nil (w : World F) : log_to w [] = w.
Proof. destruct w. unfold log_to. simpl. now rewrite app_nil_r. Qed.

Lemma resolve_start_offset_run (args : Args) (w : World F) :
  resolve_start_offset args w
  = if truthy (checkpoint args) then
      match files w !! checkpoint args with
      | None => (Ret (offset args), w)
      | Some state =>
          match cp_off_of state with
          | Ret cp_off =>
              (Ret (if (offset args =? 0) && (cp_off >? 0) then cp_off
                    else offset args), w)
          | Raise _ => (Ret (offset args), log_to w [WarnReadCheckpoint])
          end
      end
    else (Ret (offset args), w).
Proof.
  unfold resolve_start_offset.
  destruct (truthy (checkpoint args)); [|reflexivity].
  unfold try_except, mbind, M_bind, bind, load_json, lift, mret, M_ret, ret, print.
  destruct (files w !! checkpoint args) as [state|]; [|reflexivity].
  destruct state as [ objs | cp | [ | z | ] | ]; simpl; try reflexivity;
    destruct (offset args =? 0); simpl; try reflexivity;
    match goal with |- context [?z >? 0] => destruct (z >? 0) end; reflexivity.
Qed.

(** C7, as the code has it: an explicit offset other than zero wins;
    otherwise a checkpoint that can be read gives its [next_offset] when
    that is positive and zero when it is not; otherwise the offset is zero;
    the step never raises, leaves the files alone, prints the warning
    exactly for a checkpoint that cannot be read, and the run goes on from
    the same offset as without a checkpoint. *)
Theorem resolve_start_offset_cases (args : Args) (w : World F) :
  exists start_offset log,
    resolve_start_offset args w = (Ret start_offset, log_to w log)
    /\ (offset args <> 0 -> start_offset = offset args)
    /\ (forall cp_off,
        truthy (checkpoint args) = true ->
        readable w (checkpoint args) cp_off ->
        log = []
        /\ (offset args = 0 -> start_offset = if cp_off >? 0 then cp_off else 0))
    /\ (truthy (checkpoint args) = false \/ files w !! checkpoint args = None ->
        log = [] /\ start_offset = offset args)
    /\ (truthy (checkpoint args) = true ->
        malformed w (checkpoint args) ->
        log = [WarnReadCheckpoint] /\ start_offset = offset args)
    /\ (forall mdl cards,
        main args mdl (Some cards) w
        = run_from args mdl cards start_offset (log_to w log)).
Proof.
  pose proof (resolve_start_offset_run args w) as Hrun.
  assert (Hmain : forall start_offset log,
            resolve_start_offset args w = (Ret start_offset, log_to w log) ->
            forall mdl cards,
              main args mdl (Some cards) w
              = run_from args mdl cards start_offset (log_to w log)).
  { intros s l Hr mdl cards. unfold main.
    unfold mbind at 1, M_bind at 1, bind at 1. unfold mret, M_ret, ret.
    unfold mbind, M_bind, bind. now rewrite Hr. }
  assert (Hread : forall cp_off state,
            files w !! checkpoint args = Some state ->
            readable w (checkpoint args) cp_off -> cp_off_of state = Ret cp_off).
  { intros cp_off state Hs (state' & Hs' & Ho'). congruence. }
  assert (Hmal : forall state,
            files w !! checkpoint args = Some state ->
            malformed w (checkpoint args) -> exists e, cp_off_of state = Raise e).
  { intros state Hs (state' & e & Hs' & Ho'). exists e. congruence. }
  destruct (truthy (checkpoint args)) eqn:Hcp.
  - destruct (files w !! checkpoint args) as [state|] eqn:Hfile.
    + destruct (cp_off_of state) as [cp_off|e] eqn:Hoff.
      * exists (if (offset args =? 0) && (cp_off >? 0) then cp_off else offset args), [].
        rewrite log_to_nil. split; [exact Hrun|].
        split; [|split; [|split; [|split]]].
        -- intros Hne. apply Z.eqb_neq in Hne. now rewrite Hne.
        -- intros cp_off' _ Hr. apply (Hread _ state eq_refl) in Hr.
           assert (cp_off' = cp_off) as -> by congruence.
           split; [reflexivity|]. intros Hz. rewrite Hz. simpl.
           now destruct (cp_off >? 0).
        -- intros [Hc|Hc]; congruence.
        -- intros _ Hm. apply (Hmal state eq_refl) in Hm as [e He]. congruence.
        -- intros mdl cards.
           rewrite (Hmain _ [] ltac:(rewrite log_to_nil; exact Hrun)).
           now rewrite log_to_nil.
      * exists (offset args), [WarnReadCheckpoint].
        split; [exact Hrun|].
        split; [|split; [|split; [|split]]].
        -- reflexivity.
        -- intros cp_off' _ Hr. apply (Hread _ state eq_refl) in Hr. congruence.
        -- intros [Hc|Hc]; congruence.
        -- intros _ _. split; reflexivity.
        -- now apply Hmain.
    + exists (offset args), []. rewrite log_to_nil.
      split; [exact Hrun|].
      split; [|split; [|split; [|split]]].
      * reflexivity.
      * intros cp_off' _ (state' & Hs' & _). congruence.
      * intros _. split; reflexivity.
      * intros _ (state' & e & Hs' & _). congruence.
      * intros mdl cards.
           rewrite (Hmain _ [] ltac:(rewrite log_to_nil; exact Hrun)).
           now rewrite log_to_nil.
  - exists (offset args), []. rewrite log_to_nil.
    split; [exact Hrun|].
    split; [|split; [|split; [|split]]].
    + reflexivity.
    + intros cp_off' Hc. discriminate.
    + intros _. split; reflexivity.
    + intros Hc. discriminate.
    + intros mdl cards.
           rewrite (Hmain _ [] ltac:(rewrite log_to_nil; exact Hrun)).
           now rewrite log_to_nil.
Qed.

Lemma commit_run (args : Args) (knd : kind) (start_offset : Z)
    (objects : list (OutputObject F)) (total_cards : Z) (w : World F) :
  truthy (checkpoint args) = true ->
  commit args knd start_offset objects total_cards w
  = (Ret tt,
     match faults w (checkpoint args) with
     | NoFault =>
         log_to (set_file w (checkpoint args)
                   (CheckpointDoc (committed_state args knd start_offset objects total_cards)))
           [UpdatedCheckpoint (checkpoint args)
              (start_offset + Z.of_nat (length objects)) total_cards]
     | OpenFails => log_to w [WarnWriteCheckpoint]
     | DumpFails => log_to (set_file w (checkpoint args) Unusable) [WarnWriteCheckpoint]
     end).
Proof.
  intros Hcp. unfold commit. rewrite Hcp.
  unfold try_except, mbind, M_bind, bind, dump_json, print.
  destruct (faults w (checkpoint args)); reflexivity.
Qed.

(** C8, as the code has it: [commit] rewrites the checkpoint in place.  It
    never raises and touches no other file.  Without a fault the checkpoint
    holds [next_offset = start_offset + len(objects)] and the metadata; when
    the file cannot be opened the files are as before; when the write fails
    after the file was opened the former checkpoint is gone.  A failure
    shows as the warning only. *)
Theorem commit_outcomes (args : Args) (knd : kind) (start_offset : Z)
    (objects : list (OutputObject F)) (total_cards : Z) (w : World F)
    (Hcp : truthy (checkpoint args) = true) :
  exists w',
    commit args knd start_offset objects total_cards w = (Ret tt, w')
    /\ faults w' = faults w
    /\ (forall path, path <> checkpoint args -> files w' !! path = files w !! path)
    /\ (faults w (checkpoint args) = NoFault ->
        files w' !! checkpoint args
        = Some (CheckpointDoc
                  (committed_state args knd start_offset objects total_cards))
        /\ stdout w'
           = stdout w ++ [UpdatedCheckpoint (checkpoint args)
                            (start_offset + Z.of_nat (length objects)) total_cards])
    /\ (faults w (checkpoint args) = OpenFails ->
        files w' = files w /\ stdout w' = stdout w ++ [WarnWriteCheckpoint])
    /\ (faults w (checkpoint args) = DumpFails ->
        files w' !! checkpoint args = Some Unusable
        /\ stdout w' = stdout w ++ [WarnWriteCheckpoint]).
Proof.
  eexists. split; [now apply commit_run|].
  destruct (faults w (checkpoint args)) eqn:Hfault; simpl.
  - split; [reflexivity|]. split; [|split; [|split]].
    + intros path Hne. now apply lookup_insert_ne.
    + intros _. split; [apply lookup_insert_eq|reflexivity].
    + discriminate.
    + discriminate.
  - split; [reflexivity|]. split; [|split; [|split]].
    + reflexivity.
    + discriminate.
    + intros _. split; reflexivity.
    + discriminate.
  - split; [reflexivity|]. split; [|split; [|split]].
    + intros path Hne. now apply lookup_insert_ne.
    + discriminate.
    + discriminate.
    + intros _. split; [apply lookup_insert_eq|reflexivity].
Qed.

End Checkpoint.

(** ** The windowing loop *)

Section Windowing.
Context {F : Type} `{PyFloat F} `{JsonDumps}.

Variables (start_offset lim : Z) (incl : bool).

Lemma accept_nil (w : Window F) : accept incl w [] = w.
Proof.
  destruct w. unfold accept. simpl. rewrite !app_nil_r. f_equal; lia.
Qed.

Lemma accept_cons (w : Window F) (c : Card.t F) (cs : list (Card.t F)) :
  accept incl (accept incl w [c]) cs = accept incl w (c :: cs).
Proof.
  unfold accept. simpl. rewrite <- !app_assoc. simpl. f_equal; lia.
Qed.

(** A card without identifier, met at or after the offset, leaves every
    loop variable as it was. *)
Lemma window_loop_skip (c : Card.t F) (rest : list (Card.t F)) (w : Window F) :
  start_offset <= win_i w -> has_id c = false ->
  window_loop start_offset lim incl (c :: rest) w
  = window_loop start_offset lim incl rest w.
Proof.
  intros Hle Hid. simpl.
  rewrite (proj2 (Z.ltb_ge _ _) Hle).
  unfold has_id in Hid.
  destruct (Card.id c) as [[|a s]|]; try reflexivity. discriminate.
Qed.

Lemma window_loop_accept (c : Card.t F) (rest : list (Card.t F)) (w : Window F) :
  start_offset <= win_i w -> has_id c = true ->
  window_loop start_offset lim incl (c :: rest) w
  = if negb (lim =? 0) && (win_processed w + 1 >=? lim)
    then (accept incl w [c], rest)
    else window_loop start_offset lim incl rest (accept incl w [c]).
Proof.
  intros Hle Hid. simpl.
  rewrite (proj2 (Z.ltb_ge _ _) Hle).
  unfold has_id in Hid. unfold accept, entry_of. simpl.
  destruct (Card.id c) as [[|a s]|]; try discriminate. reflexivity.
Qed.

Lemma window_loop_examine (cards : list (Card.t F)) :
  forall w : Window F,
  cards = [] \/ start_offset <= win_i w ->
  window_loop start_offset lim incl cards w
  = (accept incl w (List.filter has_id (examine lim (win_processed w) cards).1),
     (examine lim (win_processed w) cards).2).
Proof.
  induction cards as [|c rest IH]; intros w Hpre.
  - unfold examine. simpl. destruct (lim =? 0); simpl; now rewrite accept_nil.
  - destruct Hpre as [Hnil|Hle]; [discriminate|].
    destruct (has_id c) eqn:Hid.
    + rewrite window_loop_accept by assumption.
      unfold examine. destruct (lim =? 0) eqn:Hlim; simpl.
      * rewrite IH by (right; simpl; lia).
        unfold examine. rewrite Hlim, Hid. simpl. now rewrite accept_cons.
      * rewrite Hid.
        destruct (win_processed w + 1 >=? lim) eqn:Hge.
        -- apply Z.geb_le in Hge.
           replace (Z.to_nat (lim - win_processed w)) with
             (match Z.to_nat (lim - win_processed w) with S (S _) => 0 | n => n end)%nat
             by (destruct (Z.to_nat (lim - win_processed w)) as [|[|n]] eqn:E; lia).
           destruct (Z.to_nat (lim - win_processed w)) as [|[|n]] eqn:E;
             simpl; rewrite ?Hid; reflexivity.
        -- assert (Hlt : win_processed w + 1 < lim).
           { destruct (Z.geb_spec (win_processed w + 1) lim); [discriminate|lia]. }
           rewrite IH by (right; simpl; lia).
           unfold examine. rewrite Hlim. simpl win_processed.
           destruct (Z.to_nat (lim - win_processed w)) as [|[|n]] eqn:E; try lia.
           replace (Z.to_nat (lim - (win_processed w + Z.of_nat 1))) with (S n) by lia.
           simpl. rewrite Hid. now rewrite accept_cons.
    + rewrite window_loop_skip by assumption.
      rewrite IH by (right; assumption).
      unfold examine. destruct (lim =? 0); simpl; rewrite !Hid; simpl;
        rewrite ?Hid; reflexivity.
Qed.

Lemma set_i_same (w : Window F) : set_i w (win_i w) = w.
Proof. now destruct w. Qed.

(** Before the offset is reached the loop only counts cards. *)
Lemma window_loop_offset (cards : list (Card.t F)) :
  forall w : Window F,
  win_i w <= start_offset ->
  exists i',
    window_loop start_offset lim incl cards w
    = window_loop start_offset lim incl
        (drop (Z.to_nat (start_offset - win_i w)) cards) (set_i w i')
    /\ (drop (Z.to_nat (start_offset - win_i w)) cards = [] \/ start_offset <= i').
Proof.
  induction cards as [|c rest IH]; intros w Hle.
  - exists (win_i w). rewrite drop_nil, set_i_same. auto.
  - destruct (Z.ltb_spec (win_i w) start_offset) as [Hlt|Hge].
    + destruct (IH {| win_i := win_i w + 1; win_processed := win_processed w;
                      win_texts := win_texts w; win_idx_map := win_idx_map w |})
        as (i' & Hrun & Hpost); [simpl; lia|].
      simpl win_i in *.
      replace (Z.to_nat (start_offset - win_i w))
        with (S (Z.to_nat (start_offset - (win_i w + 1)))) by lia.
      exists i'. split; [|exact Hpost].
      simpl. rewrite (proj2 (Z.ltb_lt _ _) Hlt). exact Hrun.
    + exists (win_i w). replace (start_offset - win_i w) with 0 by lia.
      simpl. rewrite set_i_same. split; [reflexivity|right; lia].
Qed.

Lemma window_loop_init (cards : list (Card.t F)) :
  exists i',
    window_loop start_offset lim incl cards window_init
    = (accept incl (set_i window_init i') (List.filter has_id (window_of start_offset lim cards).1),
       (window_of start_offset lim cards).2).
Proof.
  unfold window_of.
  destruct (Z.le_gt_cases 0 start_offset) as [Hle|Hgt].
  - destruct (window_loop_offset cards window_init Hle) as (i' & Hrun & Hpost).
    simpl win_i in *. rewrite Z.sub_0_r in *.
    exists i'. rewrite Hrun.
    now rewrite window_loop_examine by exact Hpost.
  - exists 0. replace (Z.to_nat start_offset) with 0%nat by lia.
    rewrite drop_0.
    now rewrite window_loop_examine by (right; simpl; lia).
Qed.

Lemma window_loop_idx_map (cards : list (Card.t F)) :
  win_idx_map (window_loop start_offset lim incl cards window_init).1
  = map entry_of (List.filter has_id (window_of start_offset lim cards).1).
Proof. destruct (window_loop_init cards) as (i' & ->). reflexivity. Qed.

Lemma window_loop_texts (cards : list (Card.t F)) :
  win_texts (window_loop start_offset lim incl cards window_init).1
  = map (fun c => build_embed_text c incl)
      (List.filter has_id (window_of start_offset lim cards).1).
Proof. destruct (window_loop_init cards) as (i' & ->). reflexivity. Qed.

Lemma window_loop_rest (cards : list (Card.t F)) :
  (window_loop start_offset lim incl cards window_init).2 = (window_of start_offset lim cards).2.
Proof. destruct (window_loop_init cards) as (i' & ->). reflexivity. Qed.

End Windowing.

(** ** Facts about the examined prefix *)

Section Examined.
Context {F : Type}.

Lemma split_after_ids_app (q : nat) (cards : list (Card.t F)) :
  cards = (split_after_ids q cards).1 ++ (split_after_ids q cards).2.
Proof.
  revert q. induction cards as [|c rest IH]; intros q; [reflexivity|].
  simpl. destruct (has_id c).
  - destruct q as [|[|q']]; simpl; try reflexivity. f_equal. apply IH.
  - simpl. f_equal. apply IH.
Qed.

Lemma examine_app (lim processed : Z) (cards : list (Card.t F)) :
  cards = (examine lim processed cards).1 ++ (examine lim processed cards).2.
Proof.
  unfold examine. destruct (lim =? 0); simpl.
  - now rewrite app_nil_r.
  - apply split_after_ids_app.
Qed.

(** A larger quota examines at least as much. *)
Lemma split_after_ids_mono (cards : list (Card.t F)) :
  forall q q' : nat,
  (q <= q')%nat ->
  (split_after_ids q cards).1 `prefix_of` (split_after_ids q' cards).1.
Proof.
  induction cards as [|c rest IH]; intros q q' Hle; [reflexivity|].
  simpl. destruct (has_id c).
  - destruct q as [|[|q1]], q' as [|[|q1']]; simpl; try lia; try reflexivity;
      try (apply prefix_cons, prefix_nil).
    apply prefix_cons, IH. lia.
  - simpl. apply prefix_cons, IH, Hle.
Qed.

(** What is left of the examined prefix after its first cards is examined
    again by a loop that starts there with the same quota. *)
Lemma split_after_ids_suffix (h : list (Card.t F)) :
  forall (q : nat) (cards t : list (Card.t F)),
  (split_after_ids q cards).1 = h ++ t ->
  t `prefix_of` (split_after_ids q (drop (length h) cards)).1.
Proof.
  induction h as [|c h IH]; intros q cards t Heq.
  - simpl in *. rewrite <- Heq. reflexivity.
  - destruct cards as [|c' rest]; [discriminate|].
    simpl in Heq. simpl drop.
    destruct (has_id c').
    + destruct q as [|[|q1]]; simpl in Heq; injection Heq as -> Heq.
      * destruct h; [|discriminate]. simpl in Heq. subst t. apply prefix_nil.
      * destruct h; [|discriminate]. simpl in Heq. subst t. apply prefix_nil.
      * etransitivity; [apply (IH _ _ _ Heq)|].
        apply split_after_ids_mono. lia.
    + simpl in Heq. injection Heq as -> Heq. apply (IH _ _ _ Heq).
Qed.

Lemma filter_has_id_prefix (l1 l2 : list (Card.t F)) :
  l1 `prefix_of` l2 -> List.filter has_id l1 `prefix_of` List.filter has_id l2.
Proof. intros [k ->]. rewrite List.filter_app. now exists (List.filter has_id k). Qed.

Lemma filter_has_id_length (l : list (Card.t F)) :
  (length (List.filter has_id l) <= length l)%nat.
Proof. induction l as [|c l IH]; simpl; [lia|]. destruct (has_id c); simpl; lia. Qed.

Lemma filter_has_id_lt (l : list (Card.t F)) (p : nat) (c : Card.t F) :
  l !! p = Some c -> has_id c = false ->
  (length (List.filter has_id l) < length l)%nat.
Proof.
  revert p. induction l as [|c' l IH]; intros p Hp Hid; [discriminate|].
  destruct p as [|p]; simpl in *.
  - injection Hp as ->. rewrite Hid. pose proof (filter_has_id_length l). lia.
  - specialize (IH p Hp Hid). destruct (has_id c'); simpl; lia.
Qed.

(** When every card has an identifier the examined prefix is a slice. *)
Lemma split_after_ids_all (cards : list (Card.t F)) :
  forall q : nat,
  forallb has_id cards = true ->
  split_after_ids (S q) cards = (take (S q) cards, drop (S q) cards).
Proof.
  induction cards as [|c rest IH]; intros q Hall; [reflexivity|].
  simpl in Hall. apply andb_true_iff in Hall as [Hc Hrest].
  simpl. rewrite Hc. destruct q as [|q].
  - simpl. now rewrite take_0, drop_0.
  - rewrite IH by assumption. reflexivity.
Qed.

(** When the loop stops before the end of the list, the last card it
    examined has an identifier. *)
Lemma split_after_ids_last (cards : list (Card.t F)) :
  forall q : nat,
  (split_after_ids q cards).2 <> [] ->
  exists pre c,
    (split_after_ids q cards).1 = pre ++ [c] /\ has_id c = true.
Proof.
  induction cards as [|c rest IH]; intros q Hrest; [now simpl in Hrest|].
  simpl in *. destruct (has_id c) eqn:Hid.
  - destruct q as [|[|q1]]; simpl in *.
    + exists [], c. auto.
    + exists [], c. auto.
    + destruct (IH _ Hrest) as (pre & c' & -> & Hc').
      exists (c :: pre), c'. auto.
  - simpl in *. destruct (IH _ Hrest) as (pre & c' & -> & Hc').
    exists (c :: pre), c'. auto.
Qed.

(** A window that holds a card without identifier, the offset the
    checkpoint gets after it, and the window of the run that resumes
    there.  [n] is the number of cards of the window that lie before that
    offset. *)
Lemma window_reexamined (start_offset lim : Z) (cards : list (Card.t F))
    (p : nat) (c : Card.t F) :
  lim <> 0 ->
  (Z.to_nat start_offset <= p
   < examined_end cards (window_of start_offset lim cards).2)%nat ->
  cards !! p = Some c -> has_id c = false ->
  let pre := (window_of start_offset lim cards).1 in
  let next := start_offset + Z.of_nat (length (List.filter has_id pre)) in
  let n := (Z.to_nat next - Z.to_nat start_offset)%nat in
  (Z.to_nat next < examined_end cards (window_of start_offset lim cards).2)%nat
  /\ slice (Z.to_nat next)
        (examined_end cards (window_of start_offset lim cards).2) cards
     = drop n pre
  /\ drop n pre `prefix_of` (window_of next lim cards).1
  /\ ((window_of start_offset lim cards).2 <> [] ->
      List.filter has_id (drop n pre) <> []).
Proof.
  intros Hlim Hp Hc Hid pre next n.
  unfold examined_end in *.
  set (s := Z.to_nat start_offset) in *.
  set (rest := (window_of start_offset lim cards).2) in *.
  set (a := length (List.filter has_id pre)) in *.
  assert (Happ : drop s cards = pre ++ rest) by apply examine_app.
  assert (Hlen : (length cards - s = length pre + length rest)%nat).
  { rewrite <- length_drop, Happ. apply length_app. }
  assert (Hin : pre !! (p - s)%nat = Some c).
  { rewrite <- (lookup_app_l pre rest) by lia.
    rewrite <- Happ, lookup_drop. now replace (s + (p - s))%nat with p by lia. }
  assert (Ha : (a < length pre)%nat) by (eapply filter_has_id_lt; eassumption).
  assert (Hn : (n <= a)%nat) by (unfold n, next, s; lia).
  assert (Hnext : Z.to_nat next = (s + n)%nat) by (unfold n, next, s; lia).
  assert (Hdrop : drop (s + n) cards = drop n pre ++ rest).
  { rewrite <- drop_drop, Happ. apply drop_app_le. lia. }
  rewrite Hnext.
  split; [lia|]. split; [|split].
  - unfold slice. rewrite Hdrop. apply take_app_length'.
    rewrite length_drop. lia.
  - unfold window_of, examine in *. rewrite Hnext.
    fold s in pre. destruct (lim =? 0) eqn:E; [apply Z.eqb_eq in E; contradiction|].
    rewrite <- drop_drop.
    replace n with (length (take n pre)) at 2 by (rewrite length_take; lia).
    apply split_after_ids_suffix. fold pre. now rewrite take_drop.
  - intros Hrest. unfold window_of, examine in *. fold s in pre, rest.
    destruct (lim =? 0) eqn:E; [apply Z.eqb_eq in E; contradiction|].
    destruct (split_after_ids_last _ _ Hrest) as (pre' & c' & Hpre & Hc').
    fold pre in Hpre. rewrite Hpre in *.
    rewrite length_app in Ha. simpl in Ha.
    rewrite drop_app_le by lia.
    rewrite List.filter_app. simpl. rewrite Hc'.
    intros Hnil. apply (f_equal length) in Hnil.
    rewrite length_app in Hnil. simpl in Hnil. lia.
Qed.

Lemma forallb_has_id_drop (cards : list (Card.t F)) (n : nat) :
  forallb has_id cards = true -> forallb has_id (drop n cards) = true.
Proof.
  revert n. induction cards as [|c cards IH]; intros [|n] Hall; simpl in *;
    try assumption; try reflexivity.
  apply andb_true_iff in Hall as [_ Hall]. now apply IH.
Qed.

Lemma forallb_has_id_take (cards : list (Card.t F)) (n : nat) :
  forallb has_id cards = true -> forallb has_id (take n cards) = true.
Proof.
  revert n. induction cards as [|c cards IH]; intros [|n] Hall; simpl in *;
    try reflexivity.
  apply andb_true_iff in Hall as [Hc Hall]. rewrite Hc. now apply IH.
Qed.

Lemma filter_has_id_all (cards : list (Card.t F)) :
  forallb has_id cards = true -> List.filter has_id cards = cards.
Proof.
  induction cards as [|c cards IH]; intros Hall; simpl in *; [reflexivity|].
  apply andb_true_iff in Hall as [Hc Hall]. rewrite Hc. f_equal. now apply IH.
Qed.

(** When every card has an identifier and the limit is positive, the
    window is the slice of [lim] cards from the offset on. *)
Lemma window_of_all_ids (start_offset lim : Z) (cards : list (Card.t F)) :
  forallb has_id cards = true -> 0 < lim ->
  List.filter has_id (window_of start_offset lim cards).1
  = take (Z.to_nat lim) (drop (Z.to_nat start_offset) cards).
Proof.
  intros Hall Hlim. unfold window_of, examine.
  destruct (Z.eqb_spec lim 0) as [->|_]; [lia|].
  rewrite Z.sub_0_r.
  destruct (Z.to_nat lim) as [|q] eqn:Hq; [lia|].
  rewrite split_after_ids_all by now apply forallb_has_id_drop.
  cbn [fst]. apply filter_has_id_all.
  now apply forallb_has_id_take, forallb_has_id_drop.
Qed.

End Examined.

(** ** Whole runs *)

Section Runs.
Context {F : Type} `{PyFloat F} `{JsonDumps}.

Lemma encode_loop_length (mdl : Encoder F) (texts : list string) (bs m : nat) :
  well_behaved mdl ->
  forall (a : nat) (vectors : list (list F)),
  exists vectors',
    encode_loop mdl texts bs vectors (map (fun k => k * bs)%nat (seq a m)) = Some vectors'
    /\ length vectors'
       = (length vectors + length (take (m * bs) (drop (a * bs) texts)))%nat.
Proof.
  intros Hwb. induction m as [|m IH]; intros a vectors.
  - exists vectors. simpl. split; [reflexivity|lia].
  - cbn [seq map encode_loop]. unfold encode_step.
    destruct (Hwb (take bs (drop (a * bs) texts))) as (rows & -> & Hrows).
    cbn [mbind option_bind].
    destruct (IH (S a) (vectors ++ map l2_normalize rows)) as (vectors' & -> & Hlen).
    exists vectors'. split; [reflexivity|].
    rewrite Hlen, length_app, length_map, Hrows.
    replace (S a * bs)%nat with (a * bs + bs)%nat by lia.
    rewrite <- drop_drop.
    replace (S m * bs)%nat with (bs + m * bs)%nat by lia.
    rewrite <- (take_take_drop (drop (a * bs) texts) bs (m * bs)), length_app. lia.
Qed.

Lemma encode_all_length (mdl : Encoder F) (texts : list string) (bs : nat) :
  well_behaved mdl -> (0 < bs)%nat ->
  exists vectors,
    encode_all mdl bs texts = Some vectors /\ length vectors = length texts.
Proof.
  intros Hwb Hbs. unfold encode_all, range_step.
  destruct (encode_loop_length mdl texts bs ((length texts + bs - 1) / bs) Hwb 0%nat [])
    as (vectors & Hrun & Hlen).
  exists vectors. split; [exact Hrun|].
  rewrite Hlen. simpl. rewrite drop_0.
  rewrite take_ge by now apply EncoderFacts.range_step_covers.
  reflexivity.
Qed.

Lemma make_objects_ids (idx_map : list (string * list (string * pyval F))) :
  forall vectors : list (list F),
  length vectors = length idx_map ->
  map obj_id (make_objects idx_map vectors) = map fst idx_map.
Proof.
  unfold make_objects.
  induction idx_map as [|e idx_map IH]; intros [|v vectors] Hlen;
    simpl in *; try discriminate; [reflexivity|].
  f_equal. apply IH. lia.
Qed.

Lemma commit_never_raises (args : Args) (knd : kind) (start_offset : Z)
    (objects : list (OutputObject F)) (total_cards : Z) (w : World F) :
  (commit args knd start_offset objects total_cards w).1 = Ret tt
  /\ faults (commit args knd start_offset objects total_cards w).2 = faults w.
Proof.
  destruct (truthy (checkpoint args)) eqn:Hcp.
  - rewrite commit_run by assumption. simpl.
    split; [reflexivity|]. now destruct (faults w (checkpoint args)).
  - unfold commit. rewrite Hcp. split; reflexivity.
Qed.

(** With an encoder that answers and a batch file that can be written the
    run reaches its end. *)
Lemma run_from_ok (args : Args) (mdl : Encoder F) (cards : list (Card.t F))
    (start_offset : Z) (w : World F) :
  well_behaved mdl ->
  faults w (batch_out args) = NoFault ->
  exists vectors,
    length vectors
    = length (win_idx_map
                (window_loop start_offset (limit args) (include_name args)
                   cards window_init).1)
    /\ run_from args mdl cards start_offset w
       = (Ret (make_objects
                 (win_idx_map
                    (window_loop start_offset (limit args) (include_name args)
                       cards window_init).1) vectors),
          (commit args (enc_kind mdl) start_offset
             (make_objects
                (win_idx_map
                   (window_loop start_offset (limit args) (include_name args)
                      cards window_init).1) vectors)
             (Z.of_nat (length cards))
             (after_batch args
                (make_objects
                   (win_idx_map
                      (window_loop start_offset (limit args) (include_name args)
                         cards window_init).1) vectors) w)).2).
Proof.
  intros Hwb Hfault.
  set (win := (window_loop start_offset (limit args) (include_name args)
                 cards window_init).1).
  destruct (encode_all_length mdl (win_texts win) (batch_size_of (enc_kind mdl)) Hwb)
    as (vectors & Henc & Hlen).
  { destruct (enc_kind mdl); simpl; lia. }
  assert (Hlen' : length vectors = length (win_idx_map win)).
  { rewrite Hlen. unfold win.
    rewrite window_loop_texts, window_loop_idx_map. now rewrite !length_map. }
  exists vectors. split; [exact Hlen'|].
  unfold run_from. fold win.
  unfold mbind, M_bind, bind. rewrite Henc.
  unfold mret, M_ret, ret.
  rewrite bool_decide_eq_true_2 by exact Hlen'.
  unfold dump_json. rewrite Hfault. unfold print.
  fold (after_batch args (make_objects (win_idx_map win) vectors) w).
  pose proof (commit_never_raises args (enc_kind mdl) start_offset
                (make_objects (win_idx_map win) vectors) (Z.of_nat (length cards))
                (after_batch args (make_objects (win_idx_map win) vectors) w)) as [Hret _].
  destruct (commit args (enc_kind mdl) start_offset
              (make_objects (win_idx_map win) vectors) (Z.of_nat (length cards))
              (after_batch args (make_objects (win_idx_map win) vectors) w))
    as [r w'] eqn:Hcommit.
  simpl in Hret. subst r. reflexivity.
Qed.

Lemma resolve_start_offset_world (args : Args) (w w0 : World F) (r : res Z) :
  resolve_start_offset args w = (r, w0) ->
  files w0 = files w /\ faults w0 = faults w.
Proof.
  rewrite resolve_start_offset_run. intros Hrun.
  destruct (truthy (checkpoint args));
    [destruct (files w !! checkpoint args) as [state|];
       [destruct (cp_off_of state)|]|];
    injection Hrun as _ <-; split; reflexivity.
Qed.

Lemma main_run_from (args : Args) (mdl : Encoder F) (cards : list (Card.t F))
    (w w0 : World F) (start_offset : Z) :
  resolve_start_offset args w = (Ret start_offset, w0) ->
  main args mdl (Some cards) w = run_from args mdl cards start_offset w0.
Proof.
  intros Hres. unfold main.
  unfold mbind at 1, M_bind at 1, bind at 1. unfold mret, M_ret, ret.
  unfold mbind, M_bind, bind. now rewrite Hres.
Qed.

(** What a run that reaches its end has done. *)
Lemma run_summary (args : Args) (mdl : Encoder F) (cards : list (Card.t F))
    (start_offset : Z) (w0 : World F) :
  well_behaved mdl ->
  faults w0 (batch_out args) = NoFault ->
  exists objs w',
    run_from args mdl cards start_offset w0 = (Ret objs, w')
    /\ map obj_id objs
       = map card_id (List.filter has_id (window_of start_offset (limit args) cards).1)
    /\ faults w' = faults w0
    /\ (truthy (checkpoint args) = true ->
        faults w0 (checkpoint args) = NoFault ->
        files w' !! checkpoint args
        = Some (CheckpointDoc
                  (committed_state args (enc_kind mdl) start_offset objs
                     (Z.of_nat (length cards))))).
Proof.
  intros Hwb Hfault.
  destruct (run_from_ok args mdl cards start_offset w0 Hwb Hfault)
    as (vectors & Hlen & Hrun).
  eexists _, _. split; [exact Hrun|]. split; [|split].
  - rewrite make_objects_ids by exact Hlen.
    rewrite window_loop_idx_map, map_map. reflexivity.
  - now rewrite (proj2 (commit_never_raises _ _ _ _ _ _)).
  - intros Hcp Hfcp. rewrite commit_run by exact Hcp.
    cbn [snd]. unfold after_batch at 1. cbn [faults log_to set_file].
    rewrite Hfcp. cbn [files log_to set_file]. apply lookup_insert_eq.
Qed.

Lemma resume_at_checkpoint (args2 : Args) (w1 : World F) (path : string)
    (cp : CheckpointState) :
  offset args2 = 0 -> checkpoint args2 = path -> truthy path = true ->
  files w1 !! path = Some (CheckpointDoc cp) ->
  resolve_start_offset args2 w1 = (Ret (Z.max 0 (next_offset cp)), w1).
Proof.
  intros Hoff Hpath Htruthy Hfile.
  rewrite resolve_start_offset_run, Hpath, Htruthy, Hfile, Hoff. simpl.
  destruct (Z.gtb_spec (next_offset cp) 0); do 2 f_equal; lia.
Qed.

Lemma window_of_to_nat (start_offset start_offset' lim : Z) (cards : list (Card.t F)) :
  Z.to_nat start_offset' = Z.to_nat start_offset ->
  window_of start_offset' lim cards = window_of start_offset lim cards.
Proof. intros Heq. unfold window_of. now rewrite Heq. Qed.

(** C10: a card without identifier met at or after the offset leaves the
    loop variables as they were, and the checkpoint gets
    [start_offset + len(objects)].  So when the window of a run with a
    non-zero limit holds such a card, the committed [next_offset] is
    strictly below the index one past the last card examined, and the run
    that resumes from the checkpoint examines the cards from there to that
    index again: those with an identifier, which ended the previous batch,
    begin the next one. *)
Theorem resume_reexamines (args args2 : Args) (mdl : Encoder F)
    (cards : list (Card.t F)) (w w0 : World F) (start_offset : Z)
    (p : nat) (c : Card.t F)
    (Hwb : well_behaved mdl)
    (Hcp : truthy (checkpoint args) = true)
    (Hbatch : faults w (batch_out args) = NoFault)
    (Hcheck : faults w (checkpoint args) = NoFault)
    (Hbatch2 : faults w (batch_out args2) = NoFault)
    (Hres : resolve_start_offset args w = (Ret start_offset, w0))
    (Hlim : limit args <> 0)
    (Hp : (Z.to_nat start_offset <= p
           < examined_end cards
               (window_loop start_offset (limit args) (include_name args)
                  cards window_init).2)%nat)
    (Hc : cards !! p = Some c)
    (Hid : has_id c = false)
    (Hoff2 : offset args2 = 0)
    (Hcp2 : checkpoint args2 = checkpoint args)
    (Hlim2 : limit args2 = limit args) :
  (forall rest win,
     start_offset <= win_i win ->
     window_loop start_offset (limit args) (include_name args) (c :: rest) win
     = window_loop start_offset (limit args) (include_name args) rest win)
  /\ exists objs1 w1 cp objs2 w2,
      main args mdl (Some cards) w = (Ret objs1, w1)
      /\ files w1 !! checkpoint args = Some (CheckpointDoc cp)
      /\ next_offset cp = start_offset + Z.of_nat (length objs1)
      /\ next_offset cp
         < Z.of_nat (examined_end cards
                       (window_loop start_offset (limit args) (include_name args)
                          cards window_init).2)
      /\ resolve_start_offset args2 w1 = (Ret (Z.max 0 (next_offset cp)), w1)
      /\ main args2 mdl (Some cards) w1 = (Ret objs2, w2)
      /\ ids_between cards (Z.to_nat (next_offset cp))
           (examined_end cards
              (window_loop start_offset (limit args) (include_name args)
                 cards window_init).2)
         `suffix_of` map obj_id objs1
      /\ ids_between cards (Z.to_nat (next_offset cp))
           (examined_end cards
              (window_loop start_offset (limit args) (include_name args)
                 cards window_init).2)
         `prefix_of` map obj_id objs2
      /\ ((window_loop start_offset (limit args) (include_name args)
             cards window_init).2 <> [] ->
          ids_between cards (Z.to_nat (next_offset cp))
            (examined_end cards
               (window_loop start_offset (limit args) (include_name args)
                  cards window_init).2) <> []).
Proof.
  split; [intros rest win Hle; now apply window_loop_skip|].
  rewrite window_loop_rest in *.
  destruct (resolve_start_offset_world _ _ _ _ Hres) as [Hfiles0 Hfaults0].
  destruct (run_summary args mdl cards start_offset w0 Hwb)
    as (objs1 & w1 & Hrun1 & Hids1 & Hf1 & Hcp1); [now rewrite Hfaults0|].
  specialize (Hcp1 Hcp ltac:(now rewrite Hfaults0)).
  set (pre := (window_of start_offset (limit args) cards).1) in *.
  assert (Hlen1 : length objs1 = length (List.filter has_id pre)).
  { apply (f_equal length) in Hids1. now rewrite !length_map in Hids1. }
  destruct (window_reexamined start_offset (limit args) cards p c
              Hlim Hp Hc Hid) as (Hlt & Hslice & Hprefix & Hnonempty).
  fold pre in Hlt, Hslice, Hprefix, Hnonempty.
  rewrite <- Hlen1 in Hlt, Hslice, Hprefix, Hnonempty.
  set (cp := committed_state args (enc_kind mdl) start_offset objs1
               (Z.of_nat (length cards))) in *.
  assert (Hnext : next_offset cp = start_offset + Z.of_nat (length objs1))
    by reflexivity.
  rewrite <- Hnext in Hlt, Hslice, Hprefix, Hnonempty.
  set (n := (Z.to_nat (next_offset cp) - Z.to_nat start_offset)%nat) in *.
  assert (Hres2 : resolve_start_offset args2 w1
                  = (Ret (Z.max 0 (next_offset cp)), w1)).
  { now apply (resume_at_checkpoint args2 w1 (checkpoint args)). }
  destruct (run_summary args2 mdl cards (Z.max 0 (next_offset cp)) w1 Hwb)
    as (objs2 & w2 & Hrun2 & Hids2 & _ & _); [now rewrite Hf1, Hfaults0|].
  rewrite (window_of_to_nat (next_offset cp)) in Hids2 by lia.
  exists objs1, w1, cp, objs2, w2.
  split; [now rewrite (main_run_from _ _ _ _ _ _ Hres)|].
  split; [exact Hcp1|]. split; [exact Hnext|]. split; [lia|].
  split; [exact Hres2|].
  split; [now rewrite (main_run_from _ _ _ _ _ _ Hres2)|].
  unfold ids_between. rewrite Hslice.
  split; [|split].
  - rewrite Hids1.
    exists (map card_id (List.filter has_id (take n pre))).
    rewrite <- map_app, <- List.filter_app. now rewrite take_drop.
  - rewrite Hids2, Hlim2.
    destruct Hprefix as [k ->].
    exists (map card_id (List.filter has_id k)).
    now rewrite List.filter_app, map_app.
  - intros Hrest Hnil. apply Hnonempty; [exact Hrest|].
    now apply map_eq_nil in Hnil.
Qed.

(** X18: two runs with the same command line over a collection in which
    every card has an identifier: the first run takes the first [limit]
    cards, the second the next [limit] cards, and the checkpoint follows. *)
Theorem two_runs_with_ids (args : Args) (mdl : Encoder F)
    (cards : list (Card.t F)) (w : World F) :
  well_behaved mdl ->
  forallb has_id cards = true ->
  truthy (checkpoint args) = true ->
  offset args = 0 -> 0 < limit args ->
  files w !! checkpoint args = None ->
  faults w (batch_out args) = NoFault ->
  faults w (checkpoint args) = NoFault ->
  exists objs1 w1 cp1 objs2 w2 cp2,
    main args mdl (Some cards) w = (Ret objs1, w1)
    /\ files w1 !! checkpoint args = Some (CheckpointDoc cp1)
    /\ next_offset cp1 = Z.of_nat (Z.to_nat (limit args) `min` length cards)
    /\ map obj_id objs1 = map card_id (slice 0 (Z.to_nat (limit args)) cards)
    /\ main args mdl (Some cards) w1 = (Ret objs2, w2)
    /\ files w2 !! checkpoint args = Some (CheckpointDoc cp2)
    /\ next_offset cp2 = Z.of_nat ((2 * Z.to_nat (limit args)) `min` length cards)
    /\ map obj_id objs2
       = map card_id (slice (Z.to_nat (limit args)) (2 * Z.to_nat (limit args)) cards)
    /\ map obj_id objs1 ++ map obj_id objs2
       = map card_id (take (2 * Z.to_nat (limit args)) cards).
Proof.
  intros Hwb Hall Hcp Hoff Hlim Hnone Hbatch Hcheck.
  set (q := Z.to_nat (limit args)).
  assert (Hres1 : resolve_start_offset args w = (Ret 0, w)).
  { now rewrite resolve_start_offset_run, Hcp, Hnone, Hoff. }
  destruct (run_summary args mdl cards 0 w Hwb Hbatch)
    as (objs1 & w1 & Hrun1 & Hids1 & Hf1 & Hcp1).
  specialize (Hcp1 Hcp Hcheck).
  rewrite window_of_all_ids in Hids1 by assumption.
  fold q in Hids1. simpl in Hids1. rewrite drop_0 in Hids1.
  assert (Hlen1 : length objs1 = (q `min` length cards)%nat).
  { apply (f_equal length) in Hids1.
    now rewrite !length_map, length_take in Hids1. }
  set (cp1 := committed_state args (enc_kind mdl) 0 objs1 (Z.of_nat (length cards))) in *.
  assert (Hnext1 : next_offset cp1 = Z.of_nat (q `min` length cards)).
  { unfold cp1. simpl. now rewrite Hlen1. }
  assert (Hres2 : resolve_start_offset args w1 = (Ret (next_offset cp1), w1)).
  { rewrite (resume_at_checkpoint args w1 (checkpoint args) cp1) by easy.
    do 2 f_equal. lia. }
  destruct (run_summary args mdl cards (next_offset cp1) w1 Hwb)
    as (objs2 & w2 & Hrun2 & Hids2 & Hf2 & Hcp2); [now rewrite Hf1|].
  specialize (Hcp2 Hcp ltac:(now rewrite Hf1)).
  rewrite window_of_all_ids in Hids2 by assumption.
  fold q in Hids2. rewrite Hnext1, Nat2Z.id in Hids2.
  assert (Hdrop : take q (drop (q `min` length cards) cards) = take q (drop q cards)).
  { destruct (Nat.le_gt_cases q (length cards)) as [Hle|Hgt].
    - now rewrite Nat.min_l by exact Hle.
    - rewrite Nat.min_r by lia. now rewrite drop_all, (drop_ge cards q) by lia. }
  rewrite Hdrop in Hids2.
  assert (Hlen2 : length objs2 = (q `min` (length cards - q))%nat).
  { apply (f_equal length) in Hids2.
    now rewrite !length_map, length_take, length_drop in Hids2. }
  exists objs1, w1, cp1, objs2, w2,
    (committed_state args (enc_kind mdl) (next_offset cp1) objs2 (Z.of_nat (length cards))).
  split; [now rewrite (main_run_from _ _ _ _ _ _ Hres1)|].
  split; [exact Hcp1|]. split; [exact Hnext1|].
  split; [unfold slice; now rewrite Nat.sub_0_r, drop_0|].
  split; [now rewrite (main_run_from _ _ _ _ _ _ Hres2)|].
  split; [exact Hcp2|].
  split; [simpl; rewrite Hlen1, Hlen2; lia|].
  split; [unfold slice; now replace (2 * q - q)%nat with q by lia|].
  rewrite Hids1, Hids2, <- map_app. f_equal.
  replace (2 * q)%nat with (q + q)%nat by lia. apply take_take_drop.
Qed.

End Runs.

End DriverFacts.

(** * The scenarios, run *)

Module ScenarioFacts.

Import EmbedCards NormalizerSpec DriverSpec Scenarios.
Import NormalizerFacts EncoderFacts DriverFacts.

#[local] Existing Instance plain_json.

(** On the double-faced card the property joins the two oracle texts and
    the embedding input the three fragments. *)
Lemma props_oracle_resolution_witness :
  props_oracle_text werewolf = "First strike || Trample"
  /\ embed_oracle_text werewolf
     = "Creature - Human :: First strike || Creature - Werewolf ::  ||  :: Trample".
Proof.
  destruct (props_oracle_resolution werewolf eq_refl) as (Hp & _ & _ & _ & He).
  split; [rewrite Hp | rewrite He]; reflexivity.
Defined.

(** Three texts in batches of two and one by one. *)
Lemma encode_all_pointwise_witness :
  encode_all (constant_encoder kind_st [3; 4]%float) 2 ["a"; "b"; "c"]
  = encode_all (constant_encoder kind_st [3; 4]%float) 1 ["a"; "b"; "c"].
Proof.
  destruct (encode_all_pointwise (constant_encoder kind_st [3; 4]%float)
              (fun _ => [3; 4]%float) 2 ["a"; "b"; "c"] ltac:(lia)
              (fun batch => eq_refl)) as (_ & _ & Hbs & _).
  symmetry. apply Hbs. lia.
Defined.

(** The batch holds the objects of [a] and [b]; the third card is dropped
    without a message; the text of [b] names no colour. *)
Example three_cards_run :
  match main plain_cli (constant_encoder kind_hf [3; 4]%float) (Some three_cards)
          fresh with
  | (Ret objects, w) =>
      map obj_id objects = ["a"; "b"]
      /\ files w !! "batch.json" = Some (BatchDoc objects)
      /\ stdout w = [WroteBatch 2 "batch.json"]
  | (Raise _, _) => False
  end
  /\ build_embed_text (card_of (Some "b") (Some "Counter") (Some []) None) true
     = "Name: Counter" +:+ newline +:+ "Colors: Colorless".
Proof. vm_compute. repeat split; reflexivity. Qed.

(** C1 on this collection: the first run emits [a] and [c] and commits
    [next_offset = 2]; the second run starts at position 2, which holds [c],
    emits [c] and [d] and commits 4.  The card [c] is in both batches. *)
Theorem two_runs_reprocess_after_idless :
  ids_of first_run.1 = Some ["a"; "c"]
  /\ next_offset_at first_run.2 "cp.json" = Some 2
  /\ ids_of second_run.1 = Some ["c"; "d"]
  /\ next_offset_at second_run.2 "cp.json" = Some 4
  /\ map card_id (take 4 five_cards) = ["a"; EmptyString; "c"; "d"].
Proof. repeat split; vm_compute; reflexivity. Qed.

(** C7, as stated, fails on a checkpoint whose [next_offset] is negative.
    A run with [--offset -5] leaves such a checkpoint ([-5 + 2]); the next
    run without offset reads it and starts at 0, not at -3. *)
Lemma resolve_negative_checkpoint :
  next_offset_at (main (args_with_offset (-5)) st_model (Some five_cards) fresh).2
    "cp.json" = Some (-3)
  /\ (resolve_start_offset cli
        (main (args_with_offset (-5)) st_model (Some five_cards) fresh).2).1
     = Ret 0.
Proof. split; vm_compute; reflexivity. Qed.

(** C8, as stated, fails when the write raises after the checkpoint was
    opened: the checkpoint of the first run ([next_offset = 2]) is replaced
    by a cut-off file, which the next run cannot read; it warns and starts
    again at 0. *)
Lemma commit_loses_checkpoint :
  next_offset_at disk_full "cp.json" = Some 2
  /\ (commit cli kind_st 2 [] 5 disk_full).1 = Ret tt
  /\ files (commit cli kind_st 2 [] 5 disk_full).2 !! "cp.json" = Some Unusable
  /\ stdout (commit cli kind_st 2 [] 5 disk_full).2 = [WarnWriteCheckpoint]
  /\ (resolve_start_offset cli (commit cli kind_st 2 [] 5 disk_full).2).1 = Ret 0
  /\ stdout (resolve_start_offset cli (commit cli kind_st 2 [] 5 disk_full).2).2
     = [WarnWriteCheckpoint; WarnReadCheckpoint].
Proof. repeat split; vm_compute; reflexivity. Qed.

(** A first commit on a disk without faults. *)
Lemma commit_outcomes_witness :
  exists w',
    commit cli kind_st 0 [] 5 fresh = (Ret tt, w')
    /\ files w' !! "cp.json"
       = Some (CheckpointDoc (committed_state (F := float) cli kind_st 0 [] 5)).
Proof.
  destruct (commit_outcomes cli kind_st 0 [] 5 fresh eq_refl)
    as (w' & Hrun & _ & _ & Hok & _).
  exists w'. split; [exact Hrun|]. apply Hok. reflexivity.
Defined.

Lemma st_model_well_behaved : well_behaved st_model.
Proof.
  intros batch. eexists. split; [reflexivity|]. apply length_map.
Qed.

(** The two runs over the five cards: the card at position 1 has no
    identifier and lies in the window of the first run. *)
Lemma resume_reexamines_witness :
  exists objs1 w1 cp objs2 w2,
    main cli st_model (Some five_cards) fresh = (Ret objs1, w1)
    /\ files w1 !! "cp.json" = Some (CheckpointDoc cp)
    /\ next_offset cp
       < Z.of_nat (examined_end five_cards
                     (window_loop 0 2 false five_cards window_init).2)
    /\ main cli st_model (Some five_cards) w1 = (Ret objs2, w2)
    /\ ids_between five_cards (Z.to_nat (next_offset cp))
         (examined_end five_cards
            (window_loop 0 2 false five_cards window_init).2)
       `prefix_of` map obj_id objs2.
Proof.
  destruct (resume_reexamines cli cli st_model five_cards fresh fresh 0 1
              (card_of None (Some "Token") None None)
              st_model_well_behaved eq_refl eq_refl eq_refl eq_refl eq_refl
              ltac:(discriminate)
              ltac:(vm_compute; lia) eq_refl eq_refl eq_refl eq_refl eq_refl)
    as (_ & objs1 & w1 & cp & objs2 & w2 & H1 & H2 & _ & H4 & _ & H6 & _ & H8 & _).
  exists objs1, w1, cp, objs2, w2. auto.
Defined.

(** The double-faced card without top-level oracle text: its three faces
    reach the text returned. *)
Lemma embed_oracle_resolution_witness :
  build_embed_text werewolf false
  = join newline
      [ "Colors: Red";
        "Oracle: Creature - Human :: First strike || Creature - Werewolf ::  ||  :: Trample" ].
Proof.
  destruct (embed_oracle_resolution werewolf false) as (_ & _ & _ & Hfaces & _).
  destruct (Hfaces eq_refl ltac:(discriminate)) as (_ & _ & Htext).
  rewrite Htext. reflexivity.
Defined.

End ScenarioFacts.

(** * More properties of the driver *)

Module SelectionFacts.

Import EmbedCards DriverSpec RunSpec DriverFacts.

Section Selection.
Context {F : Type} `{PyFloat F} `{JsonDumps}.

Lemma limit_take_nil {A : Type} (lim : Z) : limit_take lim (@nil A) = [].
Proof. unfold limit_take. destruct (lim =? 0); [reflexivity|apply take_nil]. Qed.

Lemma filter_split_after_ids (cards : list (Card.t F)) :
  forall q : nat,
  List.filter has_id (split_after_ids q cards).1
  = take (Nat.max 1 q) (List.filter has_id cards).
Proof.
  induction cards as [|c rest IH]; intros q; simpl.
  - now rewrite take_nil.
  - destruct (has_id c) eqn:Hid.
    + destruct q as [|[|q']]; simpl; rewrite ?Hid; try (now rewrite take_0).
      rewrite IH. reflexivity.
    + simpl. rewrite Hid. apply IH.
Qed.

Lemma window_of_selected (start_offset lim : Z) (cards : list (Card.t F)) :
  List.filter has_id (window_of start_offset lim cards).1
  = selected start_offset lim cards.
Proof.
  unfold window_of, examine, selected, limit_take.
  destruct (lim =? 0); [reflexivity|].
  rewrite filter_split_after_ids. f_equal. lia.
Qed.

Lemma selected_length (start_offset lim : Z) (cards : list (Card.t F)) :
  0 < lim -> (length (selected start_offset lim cards) <= Z.to_nat lim)%nat.
Proof.
  intros Hlim. unfold selected, limit_take.
  destruct (Z.eqb_spec lim 0); [lia|].
  rewrite length_take. lia.
Qed.

(** X1: the loop of lines 217-231 collects the texts and the entries of
    the cards that have an identifier, from position [start_offset] on, in
    their order, and stops after [limit] of them: all of them when [limit]
    is zero, one when it is negative.  A negative offset counts as zero. *)
Theorem window_loop_selects (start_offset lim : Z) (incl : bool)
    (cards : list (Card.t F)) :
  win_idx_map (window_loop start_offset lim incl cards window_init).1
  = map entry_of (selected start_offset lim cards)
  /\ win_texts (window_loop start_offset lim incl cards window_init).1
     = map (fun c => build_embed_text c incl) (selected start_offset lim cards)
  /\ win_processed (window_loop start_offset lim incl cards window_init).1
     = Z.of_nat (length (selected start_offset lim cards))
  /\ (0 < lim -> (length (selected start_offset lim cards) <= Z.to_nat lim)%nat)
  /\ (lim < 0 -> (length (selected start_offset lim cards) <= 1)%nat)
  /\ (start_offset <= 0 ->
      selected start_offset lim cards = selected 0 lim cards).
Proof.
  split; [|split; [|split; [|split; [|split]]]].
  - now rewrite window_loop_idx_map, window_of_selected.
  - now rewrite window_loop_texts, window_of_selected.
  - destruct (window_loop_init start_offset lim incl cards) as (i' & ->).
    simpl. now rewrite window_of_selected.
  - apply selected_length.
  - intros Hlim. unfold selected, limit_take.
    destruct (Z.eqb_spec lim 0); [lia|]. rewrite length_take. lia.
  - intros Hle. unfold selected.
    now replace (Z.to_nat start_offset) with (Z.to_nat 0) by lia.
Qed.

End Selection.

End SelectionFacts.

(** * Properties of a whole run *)

Module RunFacts.

Import EmbedCards DriverSpec RunSpec DriverFacts SelectionFacts.

Section Runs.
Context {F : Type} `{PyFloat F} `{JsonDumps}.

(** One step after the other, [run_from] ends in one of five ways. *)
Lemma run_from_cases (args : Args) (mdl : Encoder F) (cards : list (Card.t F))
    (start_offset : Z) (w : World F) :
  run_from args mdl cards start_offset w
  = match encode_all mdl (batch_size_of (enc_kind mdl))
            (map (fun c => build_embed_text c (include_name args))
               (selected start_offset (limit args) cards)) with
    | None => (Raise Exception, w)
    | Some vectors =>
        if bool_decide (length vectors
                        = length (selected start_offset (limit args) cards))
        then
          match faults w (batch_out args) with
          | NoFault =>
              (Ret (make_objects
                      (map entry_of (selected start_offset (limit args) cards))
                      vectors),
               (commit args (enc_kind mdl) start_offset
                  (make_objects
                     (map entry_of (selected start_offset (limit args) cards))
                     vectors)
                  (Z.of_nat (length cards))
                  (after_batch args
                     (make_objects
                        (map entry_of (selected start_offset (limit args) cards))
                        vectors) w)).2)
          | OpenFails => (Raise Exception, w)
          | DumpFails => (Raise Exception, set_file w (batch_out args) Unusable)
          end
        else (Raise Exception, w)
    end.
Proof.
  unfold run_from.
  rewrite window_loop_texts, window_loop_idx_map, !window_of_selected.
  unfold mbind, M_bind, bind, mret, M_ret, ret, raise.
  destruct (encode_all _ _ _) as [vectors|]; [|reflexivity].
  rewrite length_map.
  destruct (bool_decide (length vectors
                         = length (selected start_offset (limit args) cards)));
    [|reflexivity].
  unfold dump_json.
  destruct (faults w (batch_out args)); try reflexivity.
  unfold print.
  match goal with
  | |- context [commit ?a ?k ?s ?o ?t ?w0] =>
      pose proof (commit_never_raises a k s o t w0) as [Hret _];
      fold (after_batch args o w) in *;
      destruct (commit a k s o t (after_batch args o w)) as [r w'] eqn:Hcommit
  end.
  simpl in Hret. subst r. reflexivity.
Qed.

Lemma resolve_start_offset_total (args : Args) (w : World F) :
  exists start_offset log,
    resolve_start_offset args w = (Ret start_offset, log_to w log).
Proof.
  rewrite resolve_start_offset_run.
  destruct (truthy (checkpoint args));
    [destruct (files w !! checkpoint args) as [state|];
       [destruct (cp_off_of state)|]|];
    try (eexists _, []; rewrite log_to_nil; reflexivity).
  eexists _, _. reflexivity.
Qed.

Lemma encode_all_nil (mdl : Encoder F) (bs : nat) :
  (0 < bs)%nat -> encode_all mdl bs [] = Some [].
Proof.
  intros Hbs. unfold encode_all, range_step. simpl.
  replace ((bs - 1) / bs)%nat with 0%nat; [reflexivity|].
  symmetry. apply Nat.div_small. lia.
Qed.

Lemma batch_size_of_pos (k : kind) : (0 < batch_size_of k)%nat.
Proof. destruct k; simpl; lia. Qed.

Lemma commit_world (args : Args) (knd : kind) (s : Z)
    (objects : list (OutputObject F)) (total_cards : Z) (w : World F) :
  commit args knd s objects total_cards w
  = (Ret tt,
     if truthy (checkpoint args) then
       match faults w (checkpoint args) with
       | NoFault =>
           log_to (set_file w (checkpoint args)
                     (CheckpointDoc (committed_state args knd s objects total_cards)))
             [UpdatedCheckpoint (checkpoint args)
                (s + Z.of_nat (length objects)) total_cards]
       | OpenFails => log_to w [WarnWriteCheckpoint]
       | DumpFails => log_to (set_file w (checkpoint args) Unusable) [WarnWriteCheckpoint]
       end
     else w).
Proof.
  destruct (truthy (checkpoint args)) eqn:Hcp.
  - now rewrite commit_run.
  - unfold commit. rewrite Hcp. reflexivity.
Qed.

Lemma make_objects_length (idx_map : list (string * list (string * pyval F)))
    (vectors : list (list F)) :
  length vectors = length idx_map ->
  length (make_objects idx_map vectors) = length idx_map.
Proof.
  intros Hlen. unfold make_objects. rewrite length_zip_with. lia.
Qed.

(** The outcome of a run, step by step. *)
Lemma run_from_outcome (args : Args) (mdl : Encoder F) (cards : list (Card.t F))
    (s : Z) (w : World F) (r : res (list (OutputObject F))) (w' : World F) :
  run_from args mdl cards s w = (r, w') ->
  (r = Raise Exception
   /\ (w' = w \/ (faults w (batch_out args) = DumpFails
                  /\ w' = set_file w (batch_out args) Unusable)))
  \/ (exists vectors,
        encode_all mdl (batch_size_of (enc_kind mdl))
          (map (fun c => build_embed_text c (include_name args))
             (selected s (limit args) cards)) = Some vectors
        /\ length vectors = length (selected s (limit args) cards)
        /\ faults w (batch_out args) = NoFault
        /\ r = Ret (make_objects (map entry_of (selected s (limit args) cards)) vectors)
        /\ w' = (commit args (enc_kind mdl) s
                   (make_objects (map entry_of (selected s (limit args) cards)) vectors)
                   (Z.of_nat (length cards))
                   (after_batch args
                      (make_objects (map entry_of (selected s (limit args) cards)) vectors)
                      w)).2).
Proof.
  rewrite run_from_cases.
  destruct (encode_all _ _ _) as [vectors|];
    [|intros [= <- <-]; left; auto].
  case_bool_decide as Hlen; [|intros [= <- <-]; left; auto].
  destruct (faults w (batch_out args)) eqn:Hf; intros [= <- <-].
  - right. exists vectors. auto 10.
  - left; auto.
  - left; auto.
Qed.

Lemma main_outcome (args : Args) (mdl : Encoder F)
    (cards_doc : option (list (Card.t F))) (w : World F)
    (r : res (list (OutputObject F))) (w' : World F) :
  main args mdl cards_doc w = (r, w') ->
  (cards_doc = None /\ r = Raise Exception /\ w' = w)
  \/ exists cards s log,
       cards_doc = Some cards
       /\ resolve_start_offset args w = (Ret s, log_to w log)
       /\ (log = [] \/ log = [WarnReadCheckpoint])
       /\ (truthy (checkpoint args) = false -> log = [] /\ s = offset args)
       /\ run_from args mdl cards s (log_to w log) = (r, w').
Proof.
  destruct cards_doc as [cards|]; [|intros [= <- <-]; left; auto].
  intros Hmain. right.
  pose proof (resolve_start_offset_run args w) as Hres.
  assert (exists s log, resolve_start_offset args w = (Ret s, log_to w log)
            /\ (log = [] \/ log = [WarnReadCheckpoint])
            /\ (truthy (checkpoint args) = false -> log = [] /\ s = offset args))
    as (s & log & Hs & Hlog & Hno).
  { rewrite Hres.
    destruct (truthy (checkpoint args));
      [destruct (files w !! checkpoint args) as [state|];
         [destruct (cp_off_of state)|]|].
    - eexists _, []. rewrite log_to_nil. split; [reflexivity|]. split; [auto|discriminate].
    - eexists _, _. split; [reflexivity|]. split; [auto|discriminate].
    - eexists _, []. rewrite log_to_nil. split; [reflexivity|]. split; [auto|discriminate].
    - eexists _, []. rewrite log_to_nil. split; [reflexivity|]. auto. }
  exists cards, s, log. repeat (split; [assumption || reflexivity|]).
  rewrite <- Hmain. symmetry. now apply main_run_from.
Qed.

(** X5: a run that fails, whatever the reason, prints no progress line and
    moves no checkpoint: every file but the batch file is as before, the
    batch file is as before or, after a write that broke off, cut off, and
    the console shows at most the warning about an unreadable checkpoint. *)
Theorem failed_run_frame (args : Args) (mdl : Encoder F)
    (cards_doc : option (list (Card.t F))) (w w' : World F) (e : exn) :
  main args mdl cards_doc w = (Raise e, w') ->
  faults w' = faults w
  /\ (forall path, path <> batch_out args -> files w' !! path = files w !! path)
  /\ (files w' = files w
      \/ (faults w (batch_out args) = DumpFails
          /\ files w' = <[batch_out args := Unusable]> (files w)))
  /\ (stdout w' = stdout w \/ stdout w' = stdout w ++ [WarnReadCheckpoint]).
Proof.
  intros Hmain.
  apply main_outcome in Hmain
    as [(_ & _ & ->)|(cards & s & log & _ & _ & Hlog & _ & Hrun)].
  { repeat split; auto. }
  apply run_from_outcome in Hrun
    as [(_ & [->|(Hf & ->)])|(vectors & _ & _ & _ & [=] & _)].
  - simpl. repeat split; auto.
    destruct Hlog as [->| ->]; [left; apply app_nil_r|right; reflexivity].
  - simpl. repeat split; auto.
    + intros path Hpath. now rewrite lookup_insert_ne.
    + destruct Hlog as [->| ->]; [left; apply app_nil_r|right; reflexivity].
Qed.

(** X4: what a successful run leaves behind.  The batch file could be
    written; no file but the batch file and the checkpoint is touched; the
    batch file holds the returned objects whenever the checkpoint has
    another path, whatever happens to the checkpoint; without a checkpoint
    the batch file is the only change and its line the only output; the
    console shows at most the warning about the checkpoint read, then the
    line of the batch, then the line of the checkpoint or the warning about
    its write; and when the line of the checkpoint is the last one, the
    checkpoint path holds the checkpoint that the line announces, also when
    it is the path of the batch file, whose batch is then gone. *)
Theorem successful_run_frame (args : Args) (mdl : Encoder F)
    (cards : list (Card.t F)) (w w' : World F)
    (objs : list (OutputObject F)) :
  main args mdl (Some cards) w = (Ret objs, w') ->
  faults w (batch_out args) = NoFault
  /\ faults w' = faults w
  /\ (forall path, path <> batch_out args -> path <> checkpoint args ->
      files w' !! path = files w !! path)
  /\ (checkpoint args <> batch_out args ->
      files w' !! batch_out args = Some (BatchDoc objs))
  /\ (truthy (checkpoint args) = false ->
      files w' = <[batch_out args := BatchDoc objs]> (files w)
      /\ stdout w' = stdout w ++ [WroteBatch (length objs) (batch_out args)])
  /\ (forall path next tot,
      last (stdout w') = Some (UpdatedCheckpoint path next tot) ->
      path = checkpoint args
      /\ exists cp,
           files w' !! checkpoint args = Some (CheckpointDoc cp)
           /\ next_offset cp = next /\ total cp = tot)
  /\ exists before after,
       stdout w' = stdout w ++ before ++ [WroteBatch (length objs) (batch_out args)] ++ after
       /\ (before = [] \/ before = [WarnReadCheckpoint])
       /\ (after = []
           \/ after = [WarnWriteCheckpoint]
           \/ exists next, after = [UpdatedCheckpoint (checkpoint args) next (Z.of_nat (length cards))]).
Proof.
  intros Hmain.
  apply main_outcome in Hmain
    as [([=] & _)|(cards' & s & log & [= <-] & _ & Hlog & Hno & Hrun)].
  apply run_from_outcome in Hrun
    as [([=] & _)|(vectors & _ & _ & Hf & [= ->] & ->)].
  simpl in Hf.
  set (objs := make_objects _ vectors).
  rewrite commit_world. cbn [snd].
  split; [exact Hf|].
  destruct (truthy (checkpoint args)) eqn:Hcp.
  - change (faults (after_batch args objs (log_to w log))) with (faults w).
    destruct (faults w (checkpoint args)) eqn:Hfc; simpl.
    + split; [reflexivity|]. split; [|split; [|split; [discriminate|split]]].
      * intros path H1 H2. now rewrite !lookup_insert_ne.
      * intros Hne. rewrite lookup_insert_ne by done. apply lookup_insert_eq.
      * intros path next tot. rewrite last_snoc. intros [= <- <- <-].
        split; [reflexivity|]. eexists. split; [apply lookup_insert_eq|].
        split; reflexivity.
      * exists log, [UpdatedCheckpoint (checkpoint args) (s + Z.of_nat (length objs)) (Z.of_nat (length cards))].
        rewrite <- !app_assoc. split; [reflexivity|]. split; [exact Hlog|].
        right; right. eexists. reflexivity.
    + split; [reflexivity|]. split; [|split; [|split; [discriminate|split]]].
      * intros path H1 H2. now rewrite !lookup_insert_ne.
      * intros Hne. apply lookup_insert_eq.
      * intros path next tot. rewrite last_snoc. discriminate.
      * exists log, [WarnWriteCheckpoint].
        rewrite <- !app_assoc. split; [reflexivity|]. split; [exact Hlog|]. auto.
    + split; [reflexivity|]. split; [|split; [|split; [discriminate|split]]].
      * intros path H1 H2. now rewrite !lookup_insert_ne.
      * intros Hne. rewrite lookup_insert_ne by done. apply lookup_insert_eq.
      * intros path next tot. rewrite last_snoc. discriminate.
      * exists log, [WarnWriteCheckpoint].
        rewrite <- !app_assoc. split; [reflexivity|]. split; [exact Hlog|]. auto.
  - destruct (Hno eq_refl) as [-> ->]. simpl.
    split; [reflexivity|]. split; [|split; [|split; [|split]]].
    + intros path H1 H2. now rewrite !lookup_insert_ne.
    + intros Hne. apply lookup_insert_eq.
    + intros _. rewrite app_nil_r. split; reflexivity.
    + intros path next tot. rewrite last_snoc. discriminate.
    + exists [], []. rewrite app_nil_r. simpl. auto.
Qed.

Lemma encode_loop_nonempty (mdl : Encoder F) (f : string -> list F)
    (texts : list string) (bs m : nat) :
  (forall batch, batch <> [] -> encode mdl batch = Some (map f batch)) ->
  (0 < bs)%nat ->
  forall (a : nat) (vectors : list (list F)),
  (m = 0 \/ (a + m - 1) * bs < length texts)%nat ->
  encode_loop mdl texts bs vectors (map (fun k => k * bs)%nat (seq a m))
  = Some (vectors
          ++ map (fun t => l2_normalize (f t)) (take (m * bs) (drop (a * bs) texts))).
Proof.
  intros Hne Hbs. induction m as [|m IH]; intros a vectors Hm.
  - simpl. now rewrite app_nil_r.
  - cbn [seq map encode_loop]. unfold encode_step.
    rewrite Hne.
    2:{ intros Hnil. apply (f_equal length) in Hnil.
        rewrite length_take, length_drop in Hnil. simpl in Hnil. nia. }
    cbn [mbind option_bind].
    rewrite IH by (destruct m; [left; reflexivity|right; nia]).
    rewrite map_map, <- app_assoc, <- map_app. do 3 f_equal.
    replace (S a * bs)%nat with (a * bs + bs)%nat by lia.
    rewrite <- drop_drop.
    replace (S m * bs)%nat with (bs + m * bs)%nat by lia.
    apply take_take_drop.
Qed.

Lemma encode_all_nonempty (mdl : Encoder F) (f : string -> list F)
    (texts : list string) (bs : nat) :
  (forall batch, batch <> [] -> encode mdl batch = Some (map f batch)) ->
  (0 < bs)%nat ->
  encode_all mdl bs texts = Some (map (fun t => l2_normalize (f t)) texts).
Proof.
  intros Hne Hbs. unfold encode_all, range_step.
  rewrite (encode_loop_nonempty mdl f); [|assumption|assumption|].
  2:{ pose proof (Nat.div_mod (length texts + bs - 1) bs ltac:(lia)).
      pose proof (Nat.mod_upper_bound (length texts + bs - 1) bs ltac:(lia)).
      destruct ((length texts + bs - 1) / bs)%nat; [left; reflexivity|right; nia]. }
  simpl. rewrite drop_0.
  rewrite take_ge by now apply EncoderFacts.range_step_covers.
  reflexivity.
Qed.

Lemma make_objects_map (f : string -> list F) (incl : bool) (cs : list (Card.t F)) :
  make_objects (map entry_of cs)
    (map (fun t => l2_normalize (f t)) (map (fun c => build_embed_text c incl) cs))
  = map (object_of f incl) cs.
Proof.
  unfold make_objects. induction cs as [|c cs IH]; [reflexivity|].
  simpl. now rewrite IH.
Qed.

(** X2: end to end.  With an encoder that gives each text of a non-empty
    batch its own row, and a batch file that can be written, [main] returns
    one object per selected card, in the order of the cards: its identifier,
    its cleaned properties and the normalised row of its text. *)
Theorem main_pointwise_batch (args : Args) (mdl : Encoder F) (f : string -> list F)
    (cards : list (Card.t F)) (w : World F) :
  (forall batch, batch <> [] -> encode mdl batch = Some (map f batch)) ->
  faults w (batch_out args) = NoFault ->
  exists s w',
    (resolve_start_offset args w).1 = Ret s
    /\ main args mdl (Some cards) w
       = (Ret (map (object_of f (include_name args)) (selected s (limit args) cards)), w').
Proof.
  intros Hne Hf.
  destruct (resolve_start_offset_total args w) as (s & log & Hres).
  exists s. eexists. split; [now rewrite Hres|].
  rewrite (main_run_from _ _ _ _ _ _ Hres), run_from_cases.
  rewrite (encode_all_nonempty mdl f) by (try assumption; apply batch_size_of_pos).
  rewrite !length_map, bool_decide_eq_true_2 by reflexivity.
  simpl faults. rewrite Hf, make_objects_map. reflexivity.
Qed.

Lemma limit_take_nil_iff {A : Type} (lim : Z) (l : list A) :
  limit_take lim l = [] <-> l = [].
Proof.
  unfold limit_take. destruct (lim =? 0); [reflexivity|].
  destruct l as [|x l]; [now rewrite take_nil|].
  replace (Z.to_nat (Z.max 1 lim)) with (S (Z.to_nat (Z.max 1 lim) - 1)) by lia.
  simpl. split; discriminate.
Qed.

Lemma limit_take_sublist {A : Type} (lim : Z) (l : list A) :
  limit_take lim l `sublist_of` l.
Proof.
  unfold limit_take. destruct (lim =? 0); [reflexivity|].
  apply sublist_take.
Qed.

Lemma selected_sublist (s lim : Z) (cards : list (Card.t F)) :
  selected s lim cards `sublist_of` List.filter has_id cards.
Proof.
  unfold selected. etrans; [apply limit_take_sublist|].
  rewrite <- (take_drop (Z.to_nat s) cards) at 2.
  rewrite List.filter_app. apply sublist_inserts_l. reflexivity.
Qed.

Lemma selected_has_id (s lim : Z) (cards : list (Card.t F)) :
  Forall (fun c => has_id c = true) (selected s lim cards).
Proof.
  apply Forall_forall. intros c Hc.
  apply (fun H => elem_of_sublist _ _ _ H (selected_sublist s lim cards)) in Hc.
  apply list_elem_of_In, List.filter_In in Hc. tauto.
Qed.

Lemma selected_length_le (s lim : Z) (cards : list (Card.t F)) :
  (length (selected s lim cards) <= length cards - Z.to_nat s)%nat.
Proof.
  unfold selected.
  etrans; [apply sublist_length, limit_take_sublist|].
  etrans; [apply filter_has_id_length|].
  now rewrite length_drop.
Qed.

Lemma make_objects_properties (idx_map : list (string * list (string * pyval F))) :
  forall vectors : list (list F),
  length vectors = length idx_map ->
  map obj_properties (make_objects idx_map vectors)
  = map (fun e => clean_props e.2) idx_map.
Proof.
  unfold make_objects.
  induction idx_map as [|e idx_map IH]; intros [|v vectors] Hlen;
    simpl in *; try discriminate; [reflexivity|].
  f_equal. apply IH. lia.
Qed.

Lemma make_objects_vectors (idx_map : list (string * list (string * pyval F))) :
  forall vectors : list (list F),
  length vectors = length idx_map ->
  map obj_vector (make_objects idx_map vectors) = vectors.
Proof.
  unfold make_objects.
  induction idx_map as [|e idx_map IH]; intros [|v vectors] Hlen;
    simpl in *; try discriminate; [reflexivity|].
  f_equal. apply IH. lia.
Qed.

Lemma encode_loop_normalized (mdl : Encoder F) (texts : list string) (bs : nat)
    (idxs : list nat) :
  forall vectors vectors' : list (list F),
  encode_loop mdl texts bs vectors idxs = Some vectors' ->
  Forall (fun v => exists row, v = l2_normalize row) vectors ->
  Forall (fun v => exists row, v = l2_normalize row) vectors'.
Proof.
  induction idxs as [|i idxs IH]; intros vectors vectors'; simpl.
  - now intros [= <-].
  - unfold encode_step.
    destruct (encode mdl (take bs (drop i texts))) as [embs|]; [|discriminate].
    cbn [mbind option_bind]. intros Hrun Hall.
    apply (IH _ _ Hrun). apply Forall_app. split; [exact Hall|].
    apply Forall_forall. intros v Hv.
    apply list_elem_of_fmap in Hv as (row & -> & _). now exists row.
Qed.

Lemma scryfall_id_kept (c : Card.t F) :
  has_id c = true ->
  dict_get "scryfall_id" (clean_props (extract_props c)) = Some (PStr (card_id c)).
Proof.
  unfold has_id, card_id. destruct (Card.id c) as [[|a i]|] eqn:Hid; try discriminate.
  intros _. unfold extract_props, clean_props. rewrite Hid. reflexivity.
Qed.

(** X3: apart from the vectors, what a batch holds does not depend on the
    encoder.  The identifiers and the properties are those of the selected
    cards; every object has the class [Card], a non-empty identifier that
    its property [scryfall_id] repeats, and a vector that left
    [l2_normalize]; the identifiers come in the order of the cards, so they
    are pairwise distinct when those of the cards are. *)
Theorem batch_objects_wellformed (args : Args) (mdl : Encoder F)
    (cards : list (Card.t F)) (w w' : World F) (objs : list (OutputObject F)) :
  main args mdl (Some cards) w = (Ret objs, w') ->
  exists s,
    (resolve_start_offset args w).1 = Ret s
    /\ map obj_id objs = map card_id (selected s (limit args) cards)
    /\ map obj_properties objs
       = map (fun c => clean_props (extract_props c)) (selected s (limit args) cards)
    /\ Forall (fun o => obj_class o = "Card"
                        /\ truthy (obj_id o) = true
                        /\ dict_get "scryfall_id" (obj_properties o)
                           = Some (PStr (obj_id o))
                        /\ exists row, obj_vector o = l2_normalize row) objs
    /\ map obj_id objs `sublist_of` map card_id (List.filter has_id cards)
    /\ (NoDup (map card_id (List.filter has_id cards)) -> NoDup (map obj_id objs)).
Proof.
  intros Hmain.
  apply main_outcome in Hmain
    as [([=] & _)|(cards' & s & log & [= <-] & Hres & _ & _ & Hrun)].
  apply run_from_outcome in Hrun
    as [([=] & _)|(vectors & Henc & Hlen & _ & [= ->] & _)].
  exists s. split; [now rewrite Hres|].
  assert (length vectors = length (map entry_of (selected s (limit args) cards)))
    as Hlen' by now rewrite length_map.
  assert (map obj_id (make_objects (map entry_of (selected s (limit args) cards)) vectors)
          = map card_id (selected s (limit args) cards)) as Hids.
  { rewrite make_objects_ids by exact Hlen'. now rewrite map_map. }
  assert (map obj_properties
            (make_objects (map entry_of (selected s (limit args) cards)) vectors)
          = map (fun c => clean_props (extract_props c)) (selected s (limit args) cards))
    as Hprops.
  { rewrite make_objects_properties by exact Hlen'. now rewrite map_map. }
  assert (map obj_id (make_objects (map entry_of (selected s (limit args) cards)) vectors)
          `sublist_of` map card_id (List.filter has_id cards)) as Hsub.
  { rewrite Hids. apply fmap_sublist, selected_sublist. }
  split; [exact Hids|]. split; [exact Hprops|].
  split; [|split; [exact Hsub|intros Hnd; exact (sublist_NoDup _ _ Hnd Hsub)]].
  pose proof (encode_loop_normalized _ _ _ _ _ _ Henc (Forall_nil_2 _)) as Hnorm.
  apply Forall_forall. intros o Ho.
  apply elem_of_zip_with in Ho as (e & v & -> & He & Hv).
  apply list_elem_of_fmap in He as (c & -> & Hc).
  pose proof (proj1 (Forall_forall _ _) (selected_has_id s (limit args) cards) c Hc) as Hid.
  split; [reflexivity|]. split; [|split].
  - revert Hid. unfold has_id, make_object, entry_of. simpl.
    now destruct (Card.id c) as [[|a i]|].
  - now apply scryfall_id_kept.
  - exact (proj1 (Forall_forall _ _) Hnorm v Hv).
Qed.

Lemma selected_nil_iff (s lim : Z) (cards : list (Card.t F)) :
  selected s lim cards = [] <-> List.filter has_id (drop (Z.to_nat s) cards) = [].
Proof. apply limit_take_nil_iff. Qed.

(** X7: nothing left to embed.  When no card from the start offset on has
    an identifier (in particular when the offset lies past the last card),
    the run ends well whatever the encoder does, writes an empty batch over
    the batch file and leaves the checkpoint at the start offset. *)
Theorem run_nothing_selected (args : Args) (mdl : Encoder F)
    (cards : list (Card.t F)) (s : Z) (w0 w : World F) :
  resolve_start_offset args w0 = (Ret s, w) ->
  List.filter has_id (drop (Z.to_nat s) cards) = [] ->
  faults w0 (batch_out args) = NoFault ->
  exists w',
    main args mdl (Some cards) w0 = (Ret [], w')
    /\ (checkpoint args <> batch_out args ->
        files w' !! batch_out args = Some (BatchDoc []))
    /\ (truthy (checkpoint args) = true ->
        faults w0 (checkpoint args) = NoFault ->
        exists cp,
          files w' !! checkpoint args = Some (CheckpointDoc cp)
          /\ next_offset cp = s).
Proof.
  intros Hres Hnone Hf.
  apply selected_nil_iff with (lim := limit args) in Hnone.
  destruct (resolve_start_offset_world _ _ _ _ Hres) as [Hfiles Hfaults].
  rewrite (main_run_from _ _ _ _ _ _ Hres), run_from_cases, Hnone.
  simpl map. rewrite encode_all_nil by apply batch_size_of_pos.
  simpl. rewrite Hfaults, Hf. eexists. split; [reflexivity|].
  rewrite commit_world. cbn [snd].
  change (faults (after_batch args [] w)) with (faults w).
  rewrite Hfaults. split.
  - intros Hne. destruct (truthy (checkpoint args));
      [destruct (faults w0 (checkpoint args))|]; simpl;
      rewrite ?lookup_insert_ne by done; apply lookup_insert_eq.
  - intros -> ->. eexists. simpl. split; [apply lookup_insert_eq|].
    simpl. lia.
Qed.

(** X6: the checkpoint a successful run leaves.  Its [next_offset] is the
    start offset plus the number of objects and its [total] the number of
    cards; from a start offset within the list [next_offset] stays within
    the list and does not go back; it moves by at most [limit]; it stays
    put exactly when no card from the start offset on has an identifier; and
    a following run without [--offset] resumes at it (at 0 when it is
    negative), without a warning. *)
Theorem checkpoint_progress (args : Args) (mdl : Encoder F)
    (cards : list (Card.t F)) (w w' : World F) (objs : list (OutputObject F)) :
  main args mdl (Some cards) w = (Ret objs, w') ->
  truthy (checkpoint args) = true ->
  faults w (checkpoint args) = NoFault ->
  exists s cp,
    (resolve_start_offset args w).1 = Ret s
    /\ files w' !! checkpoint args = Some (CheckpointDoc cp)
    /\ next_offset cp = s + Z.of_nat (length objs)
    /\ total cp = Z.of_nat (length cards)
    /\ (0 <= s <= total cp -> s <= next_offset cp <= total cp)
    /\ (0 < limit args -> next_offset cp <= s + limit args)
    /\ (next_offset cp = s
        <-> List.filter has_id (drop (Z.to_nat s) cards) = [])
    /\ (forall args2,
        offset args2 = 0 -> checkpoint args2 = checkpoint args ->
        resolve_start_offset args2 w' = (Ret (Z.max 0 (next_offset cp)), w')).
Proof.
  intros Hmain Hcp Hfc.
  apply main_outcome in Hmain
    as [([=] & _)|(cards' & s & log & [= <-] & Hres & _ & _ & Hrun)].
  apply run_from_outcome in Hrun
    as [([=] & _)|(vectors & _ & Hlen & _ & [= ->] & ->)].
  set (objs := make_objects _ vectors).
  assert (length objs = length (selected s (limit args) cards)) as Hobjs.
  { unfold objs. rewrite make_objects_length; now rewrite length_map. }
  exists s, (committed_state args (enc_kind mdl) s objs (Z.of_nat (length cards))).
  split; [now rewrite Hres|].
  assert (files (commit args (enc_kind mdl) s objs (Z.of_nat (length cards))
                   (after_batch args objs (log_to w log))).2 !! checkpoint args
          = Some (CheckpointDoc
                    (committed_state args (enc_kind mdl) s objs (Z.of_nat (length cards)))))
    as Hfile.
  { rewrite commit_world, Hcp. cbn [snd].
    change (faults (after_batch args objs (log_to w log))) with (faults w).
    rewrite Hfc. simpl. apply lookup_insert_eq. }
  split; [exact Hfile|]. split; [reflexivity|]. split; [reflexivity|].
  pose proof (selected_length_le s (limit args) cards) as Hle.
  split; [|split; [|split]].
  - simpl next_offset. simpl total. lia.
  - intros Hlim. simpl next_offset.
    pose proof (selected_length s (limit args) cards Hlim). lia.
  - rewrite <- selected_nil_iff with (lim := limit args).
    simpl next_offset. rewrite Hobjs.
    destruct (selected s (limit args) cards); simpl; split;
      (discriminate || lia || auto).
  - intros args2 Hoff Hcp2.
    apply (resume_at_checkpoint args2 _ (checkpoint args)
             (committed_state args (enc_kind mdl) s objs (Z.of_nat (length cards))));
      auto.
Qed.

Lemma encode_loop_rows (mdl : Encoder F) (texts : list string) (bs m : nat) :
  answers_rows mdl -> (0 < bs)%nat ->
  forall (a : nat) (vectors : list (list F)),
  (m = 0 \/ (a + m - 1) * bs < length texts)%nat ->
  exists vectors',
    encode_loop mdl texts bs vectors (map (fun k => k * bs)%nat (seq a m)) = Some vectors'
    /\ length vectors'
       = (length vectors + length (take (m * bs) (drop (a * bs) texts)))%nat.
Proof.
  intros Hrows Hbs. induction m as [|m IH]; intros a vectors Hm.
  - exists vectors. simpl. split; [reflexivity|lia].
  - cbn [seq map encode_loop]. unfold encode_step.
    destruct (Hrows (take bs (drop (a * bs) texts))) as (rows & -> & Hlen).
    { intros Hnil. apply (f_equal length) in Hnil.
      rewrite length_take, length_drop in Hnil. simpl in Hnil. nia. }
    cbn [mbind option_bind].
    destruct (IH (S a) (vectors ++ map l2_normalize rows)) as (vectors' & -> & Hlen').
    { destruct m; [left; reflexivity|right; nia]. }
    exists vectors'. split; [reflexivity|].
    rewrite Hlen', length_app, length_map, Hlen.
    replace (S a * bs)%nat with (a * bs + bs)%nat by lia.
    rewrite <- drop_drop.
    replace (S m * bs)%nat with (bs + m * bs)%nat by lia.
    rewrite <- (take_take_drop (drop (a * bs) texts) bs (m * bs)), length_app. lia.
Qed.

Lemma encode_all_rows (mdl : Encoder F) (texts : list string) (bs : nat) :
  answers_rows mdl -> (0 < bs)%nat ->
  exists vectors,
    encode_all mdl bs texts = Some vectors /\ length vectors = length texts.
Proof.
  intros Hrows Hbs. unfold encode_all, range_step.
  destruct (encode_loop_rows mdl texts bs ((length texts + bs - 1) / bs) Hrows Hbs 0%nat [])
    as (vectors & Hrun & Hlen).
  { pose proof (Nat.div_mod (length texts + bs - 1) bs ltac:(lia)).
    pose proof (Nat.mod_upper_bound (length texts + bs - 1) bs ltac:(lia)).
    destruct ((length texts + bs - 1) / bs)%nat; [left; reflexivity|right; nia]. }
  exists vectors. split; [exact Hrun|].
  rewrite Hlen. simpl. rewrite drop_0.
  rewrite take_ge by now apply EncoderFacts.range_step_covers.
  reflexivity.
Qed.

Lemma main_ends_well (args : Args) (mdl : Encoder F)
    (cards : list (Card.t F)) (w : World F) :
  answers_rows mdl -> faults w (batch_out args) = NoFault ->
  exists objs w', main args mdl (Some cards) w = (Ret objs, w').
Proof.
  intros Hrows Hf.
  destruct (resolve_start_offset_total args w) as (s & log & Hres).
  rewrite (main_run_from _ _ _ _ _ _ Hres), run_from_cases.
  destruct (encode_all_rows mdl
              (map (fun c => build_embed_text c (include_name args))
                 (selected s (limit args) cards))
              (batch_size_of (enc_kind mdl)) Hrows (batch_size_of_pos _))
    as (vectors & -> & Hlen).
  rewrite length_map in Hlen.
  rewrite bool_decide_eq_true_2 by exact Hlen.
  simpl faults. rewrite Hf. eauto.
Qed.

(** X8: with an encoder that answers every non-empty batch with one row per
    text, the check of line 251 never fails: the run ends well exactly when
    the batch file can be written, and the batch then has one object per
    selected card. *)
Theorem main_succeeds_iff_writable (args : Args) (mdl : Encoder F)
    (cards : list (Card.t F)) (w : World F) :
  answers_rows mdl ->
  ((exists objs w', main args mdl (Some cards) w = (Ret objs, w'))
   <-> faults w (batch_out args) = NoFault)
  /\ (forall objs w' s,
      main args mdl (Some cards) w = (Ret objs, w') ->
      (resolve_start_offset args w).1 = Ret s ->
      length objs = length (selected s (limit args) cards)).
Proof.
  intros Hrows. split; [split|].
  - intros (objs & w' & Hmain).
    apply main_outcome in Hmain
      as [([=] & _)|(cards' & s & log & [= <-] & _ & _ & _ & Hrun)].
    apply run_from_outcome in Hrun
      as [([=] & _)|(vectors & _ & _ & Hf & _)].
    exact Hf.
  - now apply main_ends_well.
  - intros objs w' s Hmain Hs.
    apply main_outcome in Hmain
      as [([=] & _)|(cards' & s' & log & [= <-] & Hres & _ & _ & Hrun)].
    rewrite Hres in Hs. injection Hs as <-.
    apply run_from_outcome in Hrun
      as [([=] & _)|(vectors & _ & Hlen & _ & [= ->] & _)].
    rewrite make_objects_length; now rewrite length_map.
Qed.

Lemma main_ids_props (args : Args) (mdl : Encoder F)
    (cards : list (Card.t F)) (w w' : World F) (objs : list (OutputObject F)) :
  main args mdl (Some cards) w = (Ret objs, w') ->
  exists s,
    (resolve_start_offset args w).1 = Ret s
    /\ map obj_class objs = map (fun _ => "Card") (selected s (limit args) cards)
    /\ map obj_id objs = map card_id (selected s (limit args) cards)
    /\ map obj_properties objs
       = map (fun c => clean_props (extract_props c)) (selected s (limit args) cards).
Proof.
  intros Hmain.
  apply main_outcome in Hmain
    as [([=] & _)|(cards' & s & log & [= <-] & Hres & _ & _ & Hrun)].
  apply run_from_outcome in Hrun
    as [([=] & _)|(vectors & _ & Hlen & _ & [= ->] & _)].
  exists s. split; [now rewrite Hres|].
  assert (length vectors = length (map entry_of (selected s (limit args) cards)))
    as Hlen' by now rewrite length_map.
  rewrite make_objects_ids, make_objects_properties, !map_map by exact Hlen'.
  split; [|split; reflexivity].
  clear -Hlen. revert vectors Hlen.
  induction (selected s (limit args) cards) as [|c cs IH]; intros [|v vs] Hlen;
    simpl in *; try discriminate; [reflexivity|].
  f_equal. apply IH. lia.
Qed.

Lemma resolve_start_offset_ext (args : Args) (w w' : World F) :
  files w' !! checkpoint args = files w !! checkpoint args ->
  (resolve_start_offset args w').1 = (resolve_start_offset args w).1.
Proof.
  intros Hsame. rewrite !resolve_start_offset_run, Hsame.
  destruct (truthy (checkpoint args)); [|reflexivity].
  destruct (files w !! checkpoint args) as [state|]; [|reflexivity].
  now destruct (cp_off_of state).
Qed.

(** X9: a failed run can be repeated.  When the checkpoint has a path of
    its own, a run that fails leaves it as it was, so the next run with the
    same command line starts at the same offset and selects the same cards;
    with an encoder that then answers and a batch file that can then be
    written it ends well. *)
Theorem retry_after_failure (args : Args) (mdl mdl2 : Encoder F)
    (cards : list (Card.t F)) (w w' : World F) (e : exn) :
  main args mdl (Some cards) w = (Raise e, w') ->
  checkpoint args <> batch_out args ->
  files w' !! checkpoint args = files w !! checkpoint args
  /\ (resolve_start_offset args w').1 = (resolve_start_offset args w).1
  /\ (answers_rows mdl2 ->
      forall w2,
      files w2 = files w' -> faults w2 (batch_out args) = NoFault ->
      exists objs w3 s,
        main args mdl2 (Some cards) w2 = (Ret objs, w3)
        /\ (resolve_start_offset args w).1 = Ret s
        /\ map obj_id objs = map card_id (selected s (limit args) cards)).
Proof.
  intros Hmain Hne.
  assert (files w' !! checkpoint args = files w !! checkpoint args) as Hsame.
  { apply main_outcome in Hmain
      as [(_ & _ & ->)|(cards' & s & log & _ & _ & _ & _ & Hrun)]; [reflexivity|].
    apply run_from_outcome in Hrun
      as [(_ & [->|(_ & ->)])|(vectors & _ & _ & _ & [=] & _)]; [reflexivity|].
    simpl. now rewrite lookup_insert_ne. }
  split; [exact Hsame|]. split; [now apply resolve_start_offset_ext|].
  intros Hrows w2 Hfiles Hf.
  destruct (main_ends_well args mdl2 cards w2 Hrows Hf) as (objs & w3 & Hmain2).
  destruct (main_ids_props _ _ _ _ _ _ Hmain2) as (s & Hs & _ & Hids & _).
  exists objs, w3, s. split; [exact Hmain2|]. split; [|exact Hids].
  rewrite <- Hs. symmetry. apply resolve_start_offset_ext.
  now rewrite Hfiles.
Qed.

End Runs.

End RunFacts.

(** * Properties of the extracted properties *)

Module PropsFacts.

Import EmbedCards NormalizerSpec DriverSpec RunSpec NormalizerFacts.

Section Props.
Context {F : Type} `{PyFloat F} `{PyFloatTruth F} `{JsonDumps}.

Lemma get_image_faces_sources (faces : list Face.t) (key : string) :
  get_image_faces faces key
  = default EmptyString
      (head (omap (fun m : gmap string (option string) => or_empty <$> m !! key)
               (map (fun f => or_no_uris (Face.image_uris f)) faces))).
Proof.
  induction faces as [|f faces IH]; [reflexivity|].
  simpl. destruct (or_no_uris (Face.image_uris f) !! key) as [v|]; simpl; auto.
Qed.

(** X10: [get_image] answers with the entry of the first image map that has the
    key: the card's own map first, then the faces in their order.  An entry
    that is null or empty gives the empty string and still ends the search. *)
Theorem get_image_first_source (card : Card.t F) (key : string) :
  get_image card key
  = default EmptyString
      (head (omap (fun m : gmap string (option string) => or_empty <$> m !! key)
               (uri_sources card)))
  /\ (forall v, or_no_uris (Card.image_uris card) !! key = Some v ->
      get_image card key = or_empty v)
  /\ (Forall (fun m : gmap string (option string) => m !! key = None)
        (uri_sources card) ->
      get_image card key = EmptyString)
  /\ (get_image card key = EmptyString
      \/ exists m, m ∈ uri_sources card /\ m !! key = Some (Some (get_image card key))).
Proof.
  assert (get_image card key
          = default EmptyString
              (head (omap (fun m : gmap string (option string) => or_empty <$> m !! key)
                       (uri_sources card)))) as Hfirst.
  { unfold get_image, uri_sources. simpl.
    destruct (or_no_uris (Card.image_uris card) !! key) as [v|]; simpl; [reflexivity|].
    apply get_image_faces_sources. }
  split; [exact Hfirst|]. split; [|split].
  - intros v Hv. unfold get_image. now rewrite Hv.
  - rewrite Hfirst. generalize (uri_sources card).
    induction 1 as [|m ms Hm _ IH]; [reflexivity|].
    simpl. now rewrite Hm.
  - rewrite Hfirst. generalize (uri_sources card). intros ms.
    induction ms as [|m ms IH]; [left; reflexivity|].
    simpl. destruct (m !! key) as [[v|]|] eqn:Hm; simpl.
    + destruct v as [|a v]; [left; reflexivity|].
      right. exists m. split; [left|exact Hm].
    + left; reflexivity.
    + destruct IH as [IH|(m' & Hin & Hm')]; [left; exact IH|].
      right. exists m'. split; [now right|exact Hm'].
Qed.

Lemma dummy_get_image_faces (faces : list Face.t) (key : string) :
  DummyVectors.get_image_faces faces key = get_image_faces faces key.
Proof.
  induction faces as [|f faces IH]; [reflexivity|].
  simpl. unfold or_no_uris. now rewrite IH.
Qed.

Lemma dummy_get_image (card : Card.t F) (key : string) :
  DummyVectors.get_image card key = get_image card key.
Proof.
  unfold DummyVectors.get_image, get_image, or_no_uris.
  now rewrite dummy_get_image_faces.
Qed.

Lemma dummy_props_oracle_text (card : Card.t F) :
  MakeDummyVectors.props_oracle_text card = props_oracle_text card.
Proof.
  unfold MakeDummyVectors.props_oracle_text, props_oracle_text.
  rewrite truthy_or_empty.
  destruct (truthy_opt (Card.oracle_text card)); [reflexivity|].
  simpl. rewrite props_faces_fold, face_oracles_comprehension. reflexivity.
Qed.

Lemma dummy_extract_props (card : Card.t F) :
  DummyVectors.extract_props card = extract_props card.
Proof.
  unfold DummyVectors.extract_props, extract_props, legalities_str, opt_str.
  now rewrite dummy_props_oracle_text, !dummy_get_image.
Qed.

(** X11: the two scripts extract the same properties from every card: the
    [extract_props] of [make_dummy_vectors.py], which filters the faces by
    a comprehension, and the one of [embed_cards.py], which loops over
    them, agree on every key, and so do their [get_image]. *)
Theorem extract_props_agree (card : Card.t F) (key : string) :
  DummyVectors.extract_props card = extract_props card
  /\ DummyVectors.get_image card key = get_image card key
  /\ clean_props (DummyVectors.extract_props card) = clean_props (extract_props card).
Proof.
  split; [apply dummy_extract_props|]. split; [apply dummy_get_image|].
  now rewrite dummy_extract_props.
Qed.

(** X12: the schema of the properties of an object.  [extract_props] fills
    the nineteen keys in a fixed order; after the cleaning the keys are
    still in that order and pairwise distinct; twelve of them always hold a
    string and three always a list, whatever the card; only [scryfall_id],
    [name], [cmc] and [edhrec_rank] can be missing. *)
Theorem clean_props_schema (card : Card.t F) :
  map fst (extract_props card) = props_keys
  /\ map fst (clean_props (extract_props card)) `sublist_of` props_keys
  /\ NoDup (map fst (clean_props (extract_props card)))
  /\ Forall (fun k => is_str (dict_get k (clean_props (extract_props card))) = true)
       string_keys
  /\ Forall (fun k => is_list (dict_get k (clean_props (extract_props card))) = true)
       list_keys
  /\ (forall k, k ∈ props_keys ->
      dict_get k (clean_props (extract_props card)) = None ->
      k ∈ ["scryfall_id"; "name"; "cmc"; "edhrec_rank"]).
Proof.
  split; [reflexivity|].
  assert (map fst (clean_props (extract_props card)) `sublist_of` props_keys) as Hsub.
  { unfold extract_props, clean_props, opt_str, props_keys.
    destruct (Card.id card), (Card.name card), (Card.cmc card),
      (Card.edhrec_rank card); simpl;
      repeat first [apply sublist_nil | apply sublist_skip | apply sublist_cons]. }
  split; [exact Hsub|]. split; [|split; [|split]].
  - apply (sublist_NoDup _ props_keys); [|exact Hsub].
    unfold props_keys. apply NoDup_ListNoDup.
    repeat (constructor; [simpl; intuition discriminate|]). constructor.
  - unfold extract_props, clean_props, opt_str, string_keys.
    destruct (Card.id card), (Card.name card), (Card.cmc card),
      (Card.edhrec_rank card); repeat constructor.
  - unfold extract_props, clean_props, opt_str, list_keys.
    destruct (Card.id card), (Card.name card), (Card.cmc card),
      (Card.edhrec_rank card); repeat constructor.
  - intros k Hk. unfold props_keys in Hk.
    repeat (apply elem_of_cons in Hk as [->|Hk]);
      try (apply elem_of_nil in Hk; contradiction);
      try (intros _; set_solver);
      unfold extract_props, clean_props, opt_str;
      destruct (Card.id card), (Card.name card), (Card.cmc card),
        (Card.edhrec_rank card); discriminate.
Qed.

End Props.

End PropsFacts.

(** * Properties of the fallback encoder *)

Module HFEncoderFacts.

Import EmbedCards DriverSpec RunSpec RunFacts.

Section HF.
Context {F : Type} `{PyFloat F}.
Variable embed_chunk : list string -> option (list (list F)).
Variable g : string -> list F.
Hypothesis embed_rows :
  forall chunk, chunk <> [] -> embed_chunk chunk = Some (map g chunk).

Lemma encode_chunks_rows (texts : list string) (bs m : nat) :
  (0 < bs)%nat ->
  forall (a : nat) (all_vecs : list (list F)),
  (m = 0 \/ (a + m - 1) * bs < length texts)%nat ->
  HFEncoder.encode_chunks embed_chunk texts bs all_vecs
    (map (fun k => k * bs)%nat (seq a m))
  = Some (all_vecs ++ map g (take (m * bs) (drop (a * bs) texts))).
Proof.
  intros Hbs. induction m as [|m IH]; intros a all_vecs Hm.
  - simpl. now rewrite app_nil_r.
  - cbn [seq map HFEncoder.encode_chunks].
    rewrite embed_rows.
    2:{ intros Hnil. apply (f_equal length) in Hnil.
        rewrite length_take, length_drop in Hnil. simpl in Hnil. nia. }
    cbn [mbind option_bind].
    rewrite IH by (destruct m; [left; reflexivity|right; nia]).
    rewrite <- app_assoc, <- map_app. do 3 f_equal.
    replace (S a * bs)%nat with (a * bs + bs)%nat by lia.
    rewrite <- drop_drop.
    replace (S m * bs)%nat with (bs + m * bs)%nat by lia.
    apply take_take_drop.
Qed.

Lemma hf_encode_positive (texts : list string) (batch_size : Z) :
  0 < batch_size ->
  HFEncoder.encode embed_chunk texts batch_size = Some (map g texts).
Proof.
  intros Hbs. unfold HFEncoder.encode, HFEncoder.py_range.
  destruct (Z.eqb_spec batch_size 0) as [|_]; [lia|].
  destruct (Z.ltb_spec batch_size 0) as [|_]; [lia|].
  cbn [mbind option_bind]. unfold range_step.
  set (bs := Z.to_nat batch_size). assert (0 < bs)%nat as Hpos by lia.
  rewrite encode_chunks_rows; [|exact Hpos|].
  2:{ pose proof (Nat.div_mod (length texts + bs - 1) bs ltac:(lia)).
      pose proof (Nat.mod_upper_bound (length texts + bs - 1) bs ltac:(lia)).
      destruct ((length texts + bs - 1) / bs)%nat; [left; reflexivity|right; nia]. }
  simpl. rewrite drop_0.
  rewrite take_ge by now apply EncoderFacts.range_step_covers.
  reflexivity.
Qed.

(** X13: the fallback encoder gives one row per text, in the order of the texts,
    whatever the chunk size; a chunk size of zero raises and a negative one
    silently gives no row at all.  The driver calls it with the length of a
    batch that is never empty, and gets one normalised row per text. *)
Theorem hf_encode_rows (texts : list string) (batch_size : Z) :
  (0 < batch_size ->
   HFEncoder.encode embed_chunk texts batch_size = Some (map g texts))
  /\ HFEncoder.encode embed_chunk texts 0 = None
  /\ (batch_size < 0 -> HFEncoder.encode embed_chunk texts batch_size = Some [])
  /\ encode (HFEncoder.as_encoder embed_chunk) [] = None
  /\ encode_all (HFEncoder.as_encoder embed_chunk)
       (batch_size_of (enc_kind (HFEncoder.as_encoder embed_chunk))) texts
     = Some (map (fun t => l2_normalize (g t)) texts).
Proof.
  split; [apply hf_encode_positive|]. split; [reflexivity|]. split; [|split].
  - intros Hneg. unfold HFEncoder.encode, HFEncoder.py_range.
    destruct (Z.eqb_spec batch_size 0) as [|_]; [lia|].
    destruct (Z.ltb_spec batch_size 0) as [_|]; [reflexivity|lia].
  - reflexivity.
  - apply encode_all_nonempty; [|apply RunFacts.batch_size_of_pos].
    intros [|t batch] Hne; [contradiction|].
    apply hf_encode_positive. simpl length. lia.
Qed.

End HF.

Section Rows.
Context {F : Type} `{PyFloat F} `{JsonDumps}.
Variable embed_chunk : list string -> option (list (list F)).
Hypothesis embed_counts :
  forall chunk, chunk <> [] ->
  exists rows, embed_chunk chunk = Some rows /\ length rows = length chunk.

Lemma range_step_whole (n : nat) : (0 < n)%nat -> range_step n n = [0%nat].
Proof.
  intros Hn. unfold range_step.
  replace ((n + n - 1) / n)%nat with 1%nat; [reflexivity|].
  apply Nat.div_unique with (r := (n - 1)%nat); lia.
Qed.

Lemma hf_answers_rows : answers_rows (HFEncoder.as_encoder embed_chunk).
Proof.
  intros batch Hne. simpl. unfold HFEncoder.encode, HFEncoder.py_range.
  assert (0 < length batch)%nat as Hpos by (destruct batch; [contradiction|simpl; lia]).
  destruct (Z.eqb_spec (Z.of_nat (length batch)) 0) as [|_]; [lia|].
  destruct (Z.ltb_spec (Z.of_nat (length batch)) 0) as [|_]; [lia|].
  cbn [mbind option_bind]. rewrite Nat2Z.id, range_step_whole by exact Hpos.
  cbn [HFEncoder.encode_chunks]. rewrite drop_0, firstn_all.
  destruct (embed_counts batch Hne) as (rows & -> & Hlen).
  exists rows. split; [reflexivity|exact Hlen].
Qed.

(** X17: a run with the fallback encoder.  The driver hands it each batch
    as one chunk; when the tokenizer and the model give one row per text of
    a chunk, the run ends well as soon as the batch file can be written
    (never reaching the step of zero that an empty batch would mean), and
    the batch has one object per selected card. *)
Theorem main_with_fallback_encoder (args : Args) (cards : list (Card.t F))
    (w : World F) :
  faults w (batch_out args) = NoFault ->
  encode (HFEncoder.as_encoder embed_chunk) [] = None
  /\ exists objs w' s,
       main args (HFEncoder.as_encoder embed_chunk) (Some cards) w = (Ret objs, w')
       /\ (resolve_start_offset args w).1 = Ret s
       /\ map obj_id objs = map card_id (selected s (limit args) cards).
Proof.
  intros Hf. split; [reflexivity|].
  destruct (main_ends_well args _ cards w hf_answers_rows Hf) as (objs & w' & Hmain).
  destruct (main_ids_props _ _ _ _ _ _ Hmain) as (s & Hs & _ & Hids & _).
  exists objs, w', s. auto.
Qed.

End Rows.

End HFEncoderFacts.

(** * Properties of [scripts/make_dummy_vectors.py] *)

Module DummyFacts.

Import EmbedCards DriverSpec RunSpec DummySpec DriverFacts RunFacts PropsFacts.

Section Dummy.
Context {F : Type} `{PyFloat F} `{PyFloatTruth F} `{JsonDumps}.
Variable uniform : string -> nat -> F.

Lemma limit_take_cons {A : Type} (lim count : Z) (x : A) (l : list A) :
  lim <> 0 -> 0 <= count ->
  take (Z.to_nat (Z.max 1 (lim - count))) (x :: l)
  = x :: (if count + 1 >=? lim then []
          else take (Z.to_nat (Z.max 1 (lim - (count + 1)))) l).
Proof.
  intros Hlim Hcount.
  destruct (Z.geb_spec (count + 1) lim).
  - replace (Z.to_nat (Z.max 1 (lim - count))) with 1%nat by lia.
    simpl. now rewrite take_0.
  - replace (Z.to_nat (Z.max 1 (lim - count)))
      with (S (Z.to_nat (Z.max 1 (lim - (count + 1))))) by lia.
    reflexivity.
Qed.

Lemma or_empty_some (s : string) : or_empty (Some s) = s.
Proof. now destruct s. Qed.

Lemma dummy_loop_spec (lim dim : Z) (cards : list (Card.t F)) :
  forall (objs : list (OutputObject F)) (count : Z),
  0 <= count ->
  DummyVectors.dummy_loop uniform lim dim cards objs count
  = let cs := if lim =? 0 then List.filter has_id cards
              else take (Z.to_nat (Z.max 1 (lim - count))) (List.filter has_id cards) in
    if forallb has_name cs then Ret (objs ++ map (dummy_object_of uniform dim) cs)
    else Raise Exception.
Proof.
  assert (forall c : Card.t F, has_id c = true ->
          forall n a cid, Card.name c = Some n -> Card.id c = Some (String a cid) ->
          {| obj_class := "Card"; obj_id := String a cid;
             obj_properties := clean_props (DummyVectors.extract_props c);
             obj_vector :=
               DummyVectors.make_vec uniform (n +:+ or_empty (Card.type_line c)) dim |}
          = dummy_object_of uniform dim c) as Hobj.
  { intros c _ n a cid Hname Hid. unfold dummy_object_of, card_id.
    now rewrite Hid, Hname, !or_empty_some, dummy_extract_props. }
  destruct (Z.eqb_spec lim 0) as [Hlim|Hlim]; cbv zeta;
    induction cards as [|c cards IH]; intros objs count Hcount.
  - simpl. now rewrite app_nil_r.
  - cbn [DummyVectors.dummy_loop List.filter].
    destruct (Card.id c) as [[|a cid]|] eqn:Hid;
      first [ assert (has_id c = false) as Hh by (unfold has_id; now rewrite Hid)
            | assert (has_id c = true) as Hh by (unfold has_id; now rewrite Hid) ];
      rewrite Hh; try (now apply IH).
    unfold DummyVectors.seed_of. cbn [forallb]. unfold has_name at 1.
    destruct (Card.name c) as [n|] eqn:Hname; [|reflexivity].
    rewrite (proj2 (Z.eqb_eq lim 0) Hlim). cbn [negb andb].
    rewrite IH by lia. rewrite (Hobj c Hh n a cid Hname Hid).
    destruct (forallb has_name _); [|reflexivity].
    now rewrite <- app_assoc.
  - simpl. rewrite take_nil. simpl. now rewrite app_nil_r.
  - cbn [DummyVectors.dummy_loop List.filter].
    destruct (Card.id c) as [[|a cid]|] eqn:Hid;
      first [ assert (has_id c = false) as Hh by (unfold has_id; now rewrite Hid)
            | assert (has_id c = true) as Hh by (unfold has_id; now rewrite Hid) ];
      rewrite Hh; try (now apply IH).
    unfold DummyVectors.seed_of. rewrite limit_take_cons by assumption.
    cbn [forallb]. unfold has_name at 1.
    destruct (Card.name c) as [n|] eqn:Hname;
      [|destruct (_ >=? _); reflexivity].
    rewrite (proj2 (Z.eqb_neq lim 0) Hlim). cbn [negb andb].
    rewrite (Hobj c Hh n a cid Hname Hid).
    destruct (count + 1 >=? lim); [reflexivity|].
    rewrite IH by lia.
    destruct (forallb has_name _); [|reflexivity].
    now rewrite <- app_assoc.
Qed.

Lemma make_vec_length (seed : string) (dim : Z) :
  length (DummyVectors.make_vec uniform seed dim) = Z.to_nat dim.
Proof.
  unfold DummyVectors.make_vec. now rewrite !length_map, length_seq.
Qed.

(** X14: the dummy batch holds the same cards, identifiers and properties as the
    batch of [embed_cards.py] started at offset 0 with the same limit, with
    vectors of [dim] components; but a card without a name among them
    stops the script. *)
Theorem dummy_objects_spec (lim dim : Z) (cards : list (Card.t F)) :
  DummyVectors.dummy_objects uniform lim dim cards
  = (if forallb has_name (selected 0 lim cards)
     then Ret (map (dummy_object_of uniform dim) (selected 0 lim cards))
     else Raise Exception)
  /\ (forall objs,
      DummyVectors.dummy_objects uniform lim dim cards = Ret objs ->
      map obj_id objs = map card_id (selected 0 lim cards)
      /\ map obj_properties objs
         = map (fun c => clean_props (extract_props c)) (selected 0 lim cards)
      /\ Forall (fun o => length (obj_vector o) = Z.to_nat dim) objs).
Proof.
  assert (DummyVectors.dummy_objects uniform lim dim cards
          = (if forallb has_name (selected 0 lim cards)
             then Ret (map (dummy_object_of uniform dim) (selected 0 lim cards))
             else Raise Exception)) as Hspec.
  { unfold DummyVectors.dummy_objects. rewrite dummy_loop_spec by lia.
    unfold selected, limit_take. simpl drop. rewrite Z.sub_0_r.
    destruct (lim =? 0); reflexivity. }
  split; [exact Hspec|].
  intros objs. rewrite Hspec.
  destruct (forallb has_name (selected 0 lim cards)); [|discriminate].
  intros [= <-]. rewrite !map_map. split; [reflexivity|]. split; [reflexivity|].
  apply Forall_forall. intros o Ho.
  apply list_elem_of_fmap in Ho as (c & -> & _). apply make_vec_length.
Qed.

(** X15: the smoke-test batch and the real batch of a run from the start of the
    list, without checkpoint and with the same limit, name the same cards
    and give them the same properties; only the vectors differ. *)
Theorem dummy_batch_matches_embed (args : Args) (mdl : Encoder F)
    (cards : list (Card.t F)) (w w' : World F) (objs dobjs : list (OutputObject F))
    (dim : Z) :
  offset args = 0 -> truthy (checkpoint args) = false ->
  main args mdl (Some cards) w = (Ret objs, w') ->
  DummyVectors.dummy_objects uniform (limit args) dim cards = Ret dobjs ->
  map obj_class dobjs = map obj_class objs
  /\ map obj_id dobjs = map obj_id objs
  /\ map obj_properties dobjs = map obj_properties objs
  /\ length dobjs = length objs.
Proof.
  intros Hoff Hcp Hmain Hdummy.
  destruct (main_ids_props _ _ _ _ _ _ Hmain) as (s & Hs & Hclass & Hids & Hprops).
  rewrite resolve_start_offset_run, Hcp, Hoff in Hs. injection Hs as <-.
  unfold DummyVectors.dummy_objects in Hdummy.
  rewrite dummy_loop_spec in Hdummy by lia.
  cbv zeta in Hdummy. rewrite Z.sub_0_r in Hdummy.
  assert ((if limit args =? 0 then List.filter has_id cards
           else take (Z.to_nat (Z.max 1 (limit args))) (List.filter has_id cards))
          = selected 0 (limit args) cards) as Hsel.
  { unfold selected, limit_take. simpl drop. now destruct (limit args =? 0). }
  rewrite Hsel in Hdummy.
  destruct (forallb has_name (selected 0 (limit args) cards)); [|discriminate].
  injection Hdummy as <-.
  rewrite Hclass, Hids, Hprops, !map_map. repeat split; try reflexivity.
  apply (f_equal length) in Hids. rewrite !length_map in Hids.
  now rewrite length_map.
Qed.

End Dummy.

End DummyFacts.

(** * Properties of [scripts/download_scryfall.py] *)

Module DownloadFacts.

Import DownloadScryfall.

(** The first entry of the requested kind decides. *)
Lemma find_url_split (kind : string) (items : list BulkItem) :
  (Forall (fun it => item_type it <> Some kind) items /\ find_url kind items = None)
  \/ (exists before it after,
        items = before ++ it :: after
        /\ Forall (fun it' => item_type it' <> Some kind) before
        /\ item_type it = Some kind
        /\ find_url kind items = download_uri it).
Proof.
  induction items as [|it items IH]; [left; split; [constructor|reflexivity]|].
  simpl. case_bool_decide as Hty.
  - right. exists [], it, items. repeat split; auto.
  - destruct IH as [[Hall Hnone]|(before & it' & after & -> & Hbefore & Hty' & Hfind)].
    + left. split; [constructor; assumption|exact Hnone].
    + right. exists (it :: before), it', after. repeat split; auto.
Qed.

(** X16: [main] saves the body behind the [download_uri] of the first entry of
    the requested kind, under the path [out]; it gives up with exit status
    1 when the index has no such entry or when that entry has no address,
    even if a later entry of the kind has one. *)
Theorem download_first_entry (kind out : string) (items : list BulkItem)
    (urlopen : string -> option string) :
  (Forall (fun it => item_type it <> Some kind) items
   /\ main kind out (Some items) urlopen = Exit1)
  \/ (exists before it after,
        items = before ++ it :: after
        /\ Forall (fun it' => item_type it' <> Some kind) before
        /\ item_type it = Some kind
        /\ main kind out (Some items) urlopen
           = match download_uri it with
             | Some (String a url) =>
                 match urlopen (String a url) with
                 | Some data => Save out data
                 | None => Raised
                 end
             | _ => Exit1
             end).
Proof.
  unfold main.
  destruct (find_url_split kind items)
    as [[Hall ->]|(before & it & after & -> & Hbefore & Hty & ->)].
  - left. split; [exact Hall|reflexivity].
  - right. exists before, it, after. repeat split; auto.
    now destruct (download_uri it) as [[|a url]|].
Qed.

End DownloadFacts.

(** * [l2_normalize] on binary64 *)

Module Binary64Facts.

Import EmbedCards.

Lemma sum_squares_zeros (vec : list float) :
  Forall (fun x => x = 0%float \/ x = (-0)%float) vec ->
  fold_left (fun acc v => fadd acc (fmul v v)) vec 0%float = 0%float.
Proof.
  induction 1 as [|x vec [->| ->] _ IH]; [reflexivity| |]; simpl; exact IH.
Qed.

(** X19: on binary64 a vector whose components are all zero, of either
    sign, has the sum of squares [+0.0] and is returned as it is: nothing is
    divided, so no component becomes NaN. *)
Theorem l2_normalize_zero_vector (vec : list float) :
  Forall (fun x => x = 0%float \/ x = (-0)%float) vec ->
  sum_squares vec = 0%float /\ l2_normalize vec = vec.
Proof.
  intros Hzero.
  assert (sum_squares vec = 0%float) as Hs by now apply sum_squares_zeros.
  split; [exact Hs|].
  unfold l2_normalize. rewrite Hs. reflexivity.
Qed.

(** Two zeros and a negative zero. *)
Lemma l2_normalize_zero_vector_witness :
  l2_normalize [0; -0; 0]%float = [0; -0; 0]%float.
Proof.
  apply l2_normalize_zero_vector.
  constructor; [left; reflexivity|].
  constructor; [right; reflexivity|].
  constructor; [left; reflexivity|].
  constructor.
Defined.

End Binary64Facts.

(** * The normalisation as floats compute it *)

Module NormalizationFacts.

Import SpecFloat FloatOps FloatAxioms.
Import EmbedCards ExactArithmetic Binary64Spec.

Lemma binary_round_aux_not_negative (p e mx ex : Z) (lx : location) :
  not_negative (binary_round_aux p e false mx ex lx) = true.
Proof.
  unfold binary_round_aux.
  destruct (shr_fexp p e mx ex lx) as [mrs' e'].
  destruct (shr_fexp p e _ e' loc_Exact) as [mrs'' e''].
  destruct (shr_m mrs''); [reflexivity| |reflexivity].
  now destruct (e'' <=? e - p).
Qed.

Lemma SFmul_square_not_negative (p e : Z) (x : spec_float) :
  not_negative (SFmul p e x x) = true.
Proof.
  destruct x as [s|s| |s m ex]; simpl; try reflexivity; try (now destruct s).
  destruct s; apply binary_round_aux_not_negative.
Qed.

Lemma SFadd_not_negative (p e : Z) (x y : spec_float) :
  not_negative x = true -> not_negative y = true ->
  not_negative (SFadd p e x y) = true.
Proof.
  destruct x as [[|]|[|]| |[|] mx ex], y as [[|]|[|]| |[|] my ey];
    simpl; try discriminate; try reflexivity.
  intros _ _. unfold binary_round.
  destruct (shl_align _ _ _) as [mz ez].
  apply binary_round_aux_not_negative.
Qed.

Lemma sum_squares_fold_not_negative (vec : list float) :
  forall acc : float,
  not_negative (Prim2SF acc) = true ->
  not_negative
    (Prim2SF (fold_left (fun acc v => fadd acc (fmul v v)) vec acc)) = true.
Proof.
  induction vec as [|v vec IH]; intros acc Hacc; [exact Hacc|].
  simpl. apply IH. rewrite add_spec, mul_spec.
  apply SFadd_not_negative; [exact Hacc|apply SFmul_square_not_negative].
Qed.

Lemma leb_zero_not_negative (s : float) :
  not_negative (Prim2SF s) = true ->
  (s <=? 0)%float = true -> s = 0%float.
Proof.
  intros Hs Hle. rewrite leb_spec in Hle.
  rewrite <- (SF2Prim_Prim2SF s).
  destruct (Prim2SF s) as [[|]|[|]| |[|] m e];
    try discriminate Hs; try discriminate Hle.
  reflexivity.
Qed.

Lemma sum_squares_leb_zero (vec : list float) :
  fle (sum_squares vec) fzero = true <-> sum_squares vec = 0%float.
Proof.
  split.
  - apply leb_zero_not_negative, sum_squares_fold_not_negative. reflexivity.
  - intros ->. reflexivity.
Qed.



End NormalizationFacts.

(** * Further concrete runs *)

Module MoreScenarioFacts.

Import EmbedCards DriverSpec RunSpec DummySpec Scenarios MoreScenarios.
Import DriverFacts ScenarioFacts RunFacts HFEncoderFacts DummyFacts.

#[local] Existing Instance plain_json.

(** The three cards through an encoder of the [hf] kind. *)
Lemma main_pointwise_batch_witness :
  exists s w',
    (resolve_start_offset plain_cli fresh).1 = Ret s
    /\ main plain_cli (constant_encoder kind_hf [3; 4]%float) (Some three_cards) fresh
       = (Ret (map (object_of (fun _ => [3; 4]%float) true) (selected s 0 three_cards)),
          w').
Proof.
  exact (main_pointwise_batch plain_cli (constant_encoder kind_hf [3; 4]%float)
           (fun _ => [3; 4]%float) three_cards fresh (fun batch _ => eq_refl) eq_refl).
Defined.

Lemma first_run_ends_well :
  main cli st_model (Some five_cards) fresh
  = (Ret (objects_of first_run.1), first_run.2).
Proof. vm_compute. reflexivity. Qed.

(** The first of the two runs over the five cards. *)
Lemma batch_objects_wellformed_witness :
  exists s,
    (resolve_start_offset cli fresh).1 = Ret s
    /\ map obj_id (objects_of first_run.1) = map card_id (selected s 2 five_cards).
Proof.
  destruct (batch_objects_wellformed cli st_model five_cards fresh first_run.2
              (objects_of first_run.1) first_run_ends_well)
    as (s & Hs & Hids & _).
  exists s. split; assumption.
Defined.

(** After the first run the batch file holds its objects. *)
Lemma successful_run_frame_witness :
  files first_run.2 !! "batch.json" = Some (BatchDoc (objects_of first_run.1)).
Proof.
  destruct (successful_run_frame cli st_model five_cards fresh first_run.2
              (objects_of first_run.1) first_run_ends_well)
    as (_ & _ & _ & Hbatch & _).
  apply Hbatch. intros [=].
Defined.

Lemma failed_run_raises :
  main cli failing_encoder (Some five_cards) fresh = (Raise Exception, failed_run.2).
Proof. vm_compute. reflexivity. Qed.

(** The encoder raises: no file is written. *)
Lemma failed_run_frame_witness :
  failed_run.1 = Raise Exception
  /\ (files failed_run.2 = files fresh
      \/ (faults fresh "batch.json" = DumpFails
          /\ files failed_run.2 = <["batch.json" := Unusable]> (files fresh))).
Proof.
  split; [vm_compute; reflexivity|].
  apply (failed_run_frame cli failing_encoder (Some five_cards) fresh failed_run.2
           Exception failed_run_raises).
Defined.

(** After the run that failed in the encoder. *)
Lemma retry_after_failure_witness :
  (resolve_start_offset cli failed_run.2).1 = (resolve_start_offset cli fresh).1.
Proof.
  destruct (retry_after_failure cli failing_encoder st_model five_cards fresh
              failed_run.2 Exception failed_run_raises) as (_ & Hsame & _).
  - intros [=].
  - exact Hsame.
Defined.

(** The checkpoint of the first run. *)
Lemma checkpoint_progress_witness :
  exists s cp,
    (resolve_start_offset cli fresh).1 = Ret s
    /\ files first_run.2 !! "cp.json" = Some (CheckpointDoc cp)
    /\ next_offset cp = s + Z.of_nat (length (objects_of first_run.1)).
Proof.
  destruct (checkpoint_progress cli st_model five_cards fresh first_run.2
              (objects_of first_run.1) first_run_ends_well eq_refl eq_refl)
    as (s & cp & Hs & Hfile & Hnext & _).
  exists s, cp. auto.
Defined.

Lemma past_end_offset :
  resolve_start_offset past_end_cli fresh = (Ret 5, fresh).
Proof. vm_compute. reflexivity. Qed.

(** [--offset 5] on the five cards. *)
Lemma run_nothing_selected_witness :
  exists w', main past_end_cli st_model (Some five_cards) fresh = (Ret [], w').
Proof.
  destruct (run_nothing_selected past_end_cli st_model five_cards 5 fresh fresh
              past_end_offset eq_refl eq_refl)
    as (w' & Hrun & _).
  exists w'. exact Hrun.
Defined.

(** The five cards on a disk without faults. *)
Lemma main_succeeds_iff_writable_witness :
  exists objs w', main cli st_model (Some five_cards) fresh = (Ret objs, w').
Proof.
  destruct (main_succeeds_iff_writable cli st_model five_cards fresh
              (fun batch _ => st_model_well_behaved batch)) as [[_ Hok] _].
  apply Hok. reflexivity.
Defined.

(** Two runs of two cards each over the four cards. *)
Lemma two_runs_with_ids_witness :
  exists objs1 w1 objs2 w2,
    main cli st_model (Some four_cards) fresh = (Ret objs1, w1)
    /\ main cli st_model (Some four_cards) w1 = (Ret objs2, w2)
    /\ map obj_id objs1 ++ map obj_id objs2 = map card_id (take 4 four_cards).
Proof.
  destruct (two_runs_with_ids cli st_model four_cards fresh st_model_well_behaved
              eq_refl eq_refl eq_refl ltac:(reflexivity) eq_refl eq_refl eq_refl)
    as (objs1 & w1 & cp1 & objs2 & w2 & cp2 & H1 & _ & _ & _ & H2 & _ & _ & _ & Hall).
  exists objs1, w1, objs2, w2. auto.
Defined.

(** Three texts through the fallback encoder. *)
Lemma hf_encode_rows_witness :
  encode_all (HFEncoder.as_encoder chunk_rows) 32 ["a"; "b"; "c"]
  = Some (map (fun _ => l2_normalize [3; 4]%float) ["a"; "b"; "c"]).
Proof.
  apply (hf_encode_rows chunk_rows (fun _ => [3; 4]%float) (fun chunk _ => eq_refl)
           ["a"; "b"; "c"] 2).
Defined.

Lemma limit_two_run_ends_well :
  main limit_two_cli st_model (Some five_cards) fresh
  = (Ret (objects_of limit_two_run.1), limit_two_run.2).
Proof. vm_compute. reflexivity. Qed.

Lemma dummy_run_ends_well :
  DummyVectors.dummy_objects uniform_half (limit limit_two_cli) 3 five_cards
  = Ret (objects_of (DummyVectors.dummy_objects uniform_half 2 3 five_cards)).
Proof. vm_compute. reflexivity. Qed.

(** The first two of the five cards that have an identifier. *)
Lemma dummy_batch_matches_embed_witness :
  map obj_id (objects_of (DummyVectors.dummy_objects uniform_half 2 3 five_cards))
  = map obj_id (objects_of limit_two_run.1).
Proof.
  apply (dummy_batch_matches_embed uniform_half limit_two_cli st_model five_cards fresh
           limit_two_run.2 (objects_of limit_two_run.1)
           (objects_of (DummyVectors.dummy_objects uniform_half 2 3 five_cards)) 3
           eq_refl eq_refl limit_two_run_ends_well dummy_run_ends_well).
Defined.

(** The three cards through the fallback encoder. *)
Lemma main_with_fallback_encoder_witness :
  exists objs w' s,
    main plain_cli (HFEncoder.as_encoder chunk_rows) (Some three_cards) fresh
    = (Ret objs, w')
    /\ (resolve_start_offset plain_cli fresh).1 = Ret s
    /\ map obj_id objs = map card_id (selected s 0 three_cards).
Proof.
  apply (main_with_fallback_encoder chunk_rows
           (fun chunk _ => ex_intro _ _ (conj eq_refl (length_map _ chunk)))
           plain_cli three_cards fresh eq_refl).
Defined.

End MoreScenarioFacts.
